(** * libtins: PDU codecs (Loopback, DHCP, Dot11Beacon)

    A shallow embedding of the parts of libtins that the specification's
    claims are about:

    - [Loopback] (src/src/loopback.cpp): the DLT_NULL link layer, embedded
      from the source, parameterised by the host byte order, the host's
      address-family constants and the constructors of the inner layers;
    - [DHCP] (the dhcp.h header): the option record, [pdu_type] and the
      [generic_search] template are embedded from the header; the functions
      that only dhcp.cpp defines are modelled from the specification;
    - [Dot11Beacon]: only the tests are available, the codec is modelled
      from the specification and checked against the tests' buffers.

    Bytes are [Byte.byte], unsigned integers of w bits are [Z] in
    [0, 2^w), buffers are [list byte]. A C++ exception is an [Error]
    result. *)

From Stdlib Require Import ZArith List Bool Lia.
From Stdlib Require Import Init.Byte.
From Stdlib Require Strings.Byte.
From Stdlib Require Strings.String.
Import ListNotations.

Local Open Scope Z_scope.

(** ** Results: exceptions as values *)

(** The error kinds the specification names for constructors. The C++
    code throws [std::runtime_error]; the kind records which check
    threw. *)
Inductive error : Type :=
| BufferTooShort
| TruncatedOption
| MalformedOption.

Inductive result (A : Type) : Type :=
| Ok (a : A)
| Error (e : error).

Arguments Ok {A} a.
Arguments Error {A} e.

Definition bind {A B : Type} (r : result A) (k : A -> result B) : result B :=
  match r with
  | Ok a => k a
  | Error e => Error e
  end.

Definition is_ok {A : Type} (r : result A) : bool :=
  match r with Ok _ => true | Error _ => false end.

Declare Scope result_scope.
Delimit Scope result_scope with result.
Notation "x <- c ;; k" := (bind c (fun x => k))
  (at level 61, c at next level, right associativity) : result_scope.

(** ** Bytes and fixed-width integers *)

Definition byte_to_Z (b : byte) : Z := Z.of_N (Byte.to_N b).

(** The low eight bits of [z], as a byte. *)
Definition Z_to_byte (z : Z) : byte :=
  match Byte.of_N (Z.to_N (z mod 256)) with
  | Some b => b
  | None => x00
  end.

(** Little-endian reading of a byte string as an unsigned integer. *)
Fixpoint le_decode (bs : list byte) : Z :=
  match bs with
  | [] => 0
  | b :: rest => byte_to_Z b + 256 * le_decode rest
  end.

(** Little-endian writing of the low [8 * n] bits of [v] in [n] bytes. *)
Fixpoint le_encode (n : nat) (v : Z) : list byte :=
  match n with
  | O => []
  | S k => Z_to_byte v :: le_encode k (v / 256)
  end.

Definition be_decode (bs : list byte) : Z := le_decode (rev bs).
Definition be_encode (n : nat) (v : Z) : list byte := rev (le_encode n v).

(** The byte order of the machine the library runs on: what
    [*reinterpret_cast<const uint32_t*>(buffer)] reads. *)
Inductive endianness : Type := LittleEndian | BigEndian.

Definition host_decode (e : endianness) (bs : list byte) : Z :=
  match e with
  | LittleEndian => le_decode bs
  | BigEndian => be_decode bs
  end.

Definition host_encode (e : endianness) (n : nat) (v : Z) : list byte :=
  match e with
  | LittleEndian => le_encode n v
  | BigEndian => be_encode n v
  end.

(** [load e n buf]: an [n]-byte host-order read at the start of [buf];
    [None] when the buffer holds fewer than [n] bytes (the C++ read would
    be out of bounds). *)
Definition load (e : endianness) (n : nat) (buf : list byte) : option Z :=
  if (length buf <? n)%nat then None
  else Some (host_decode e (firstn n buf)).

(** [store e n v buf]: an [n]-byte host-order write of [v] at the start
    of [buf], the rest of the buffer untouched. *)
Definition store (e : endianness) (n : nat) (v : Z) (buf : list byte)
  : option (list byte) :=
  if (length buf <? n)%nat then None
  else Some (host_encode e n v ++ skipn n buf).

(** ** RawPDU *)

Module RawPDU.

(** Modelled from the spec: rawpdu.cpp is not among the sources. The
    specification describes RawPDU as the catch-all body holding an
    opaque byte sequence; it has no header to check, so its byte-buffer
    constructor copies the bytes it is given and cannot fail. *)
Record t : Type := mk { payload : list byte }.

(** Modelled from the spec: the byte-buffer constructor of RawPDU
    holds exactly the bytes it is given. *)
Definition from_buffer (buffer : list byte) : t := mk buffer.

End RawPDU.

(** ** Loopback (src/src/loopback.cpp) *)

Module Loopback.

(** [sizeof(_family)], a [uint32_t]. *)
Definition sizeof_family : nat := 4.

Section Host.

(** What the translation unit takes from its environment: the byte
    order of the host ([reinterpret_cast] reads the family as the
    machine stores it), the address-family constants of
    <sys/socket.h>, and the classes of ip.h and llc.h with their
    byte-buffer constructors, which throw when they reject a
    buffer. *)
Variable host_order : endianness.
Variables PF_INET PF_LLC : Z.
Variables IP LLC : Type.
Variable IP_from_buffer : list byte -> result IP.
Variable LLC_from_buffer : list byte -> result LLC.

(** The objects [inner_pdu] can point to after the byte-buffer
    constructor ran. *)
Inductive PDU : Type :=
| PDU_IP (ip : IP)
| PDU_LLC (llc : LLC)
| PDU_RawPDU (raw : RawPDU.t).

(** A Loopback object: the [_family] member, and the [inner_pdu]
    pointer of the PDU base class ([None] is the null pointer). *)
Record t : Type := mk {
  _family : Z;
  inner_pdu : option PDU
}.

(** [Loopback::Loopback()] *)
Definition default : t := mk 0 None.

(** [Loopback::Loopback(uint32_t family_id, PDU *inner_pdu)] *)
Definition make (family_id : Z) (inner : option PDU) : t :=
  mk family_id inner.

(** [Loopback::Loopback(const uint8_t *buffer, uint32_t total_sz)].
    The pointer and its size are one list: [total_sz] is the length
    of [buffer]. The [throw] is [Error BufferTooShort]; an exception
    leaving an inner constructor leaves this constructor too, as
    nothing here catches it. *)
Definition from_buffer (buffer : list byte) : result t :=
  let total_sz := length buffer in
  if (total_sz <? sizeof_family)%nat then Error BufferTooShort
  else
    let family := host_decode host_order (firstn sizeof_family buffer) in
    let buffer := skipn sizeof_family buffer in
    let total_sz := (total_sz - sizeof_family)%nat in
    if (total_sz =? 0)%nat then Ok (mk family None)
    else if family =? PF_INET then
      (ip <- IP_from_buffer buffer ;;
       Ok (mk family (Some (PDU_IP ip))))%result
    else if family =? PF_LLC then
      (llc <- LLC_from_buffer buffer ;;
       Ok (mk family (Some (PDU_LLC llc))))%result
    else
      Ok (mk family (Some (PDU_RawPDU (RawPDU.from_buffer buffer)))).

(** The [switch] of the constructor on its own: the inner PDU built
    from the bytes after the family, by the constructor the family
    selects. Used to state what [from_buffer] does. *)
Definition inner_from_buffer (family : Z) (buffer : list byte)
  : result PDU :=
  if family =? PF_INET then
    (ip <- IP_from_buffer buffer ;; Ok (PDU_IP ip))%result
  else if family =? PF_LLC then
    (llc <- LLC_from_buffer buffer ;; Ok (PDU_LLC llc))%result
  else Ok (PDU_RawPDU (RawPDU.from_buffer buffer)).

(** [void Loopback::family(uint32_t family_id)] *)
Definition family (p : t) (family_id : Z) : t :=
  mk family_id (inner_pdu p).

(** [uint32_t Loopback::header_size() const] *)
Definition header_size (p : t) : nat := sizeof_family.

(** [void Loopback::write_serialization], with parameters
    [uint8_t *buffer], [uint32_t total_sz] and an unnamed pointer to a
    const PDU: any parent, of any class, or null. The method is not
    const, so the object is threaded through; the result is the
    object and the buffer after the call. [None] is the failed
    [assert] (or a write past the end of a buffer that holds fewer
    than four bytes). *)
Definition write_serialization {Parent : Type} (p : t)
    (buffer : list byte) (total_sz : nat) (parent : option Parent)
  : option (t * list byte) :=
  if (total_sz <? sizeof_family)%nat then None
  else
    match store host_order sizeof_family (_family p) buffer with
    | Some buffer' => Some (p, buffer')
    | None => None
    end.

End Host.

Arguments PDU_IP {IP LLC} ip.
Arguments PDU_LLC {IP LLC} llc.
Arguments PDU_RawPDU {IP LLC} raw.
Arguments mk {IP LLC} _ _.
Arguments _family {IP LLC} _.
Arguments inner_pdu {IP LLC} _.
Arguments default {IP LLC}.
Arguments make {IP LLC} _ _.
Arguments family {IP LLC} _ _.
Arguments header_size {IP LLC} _.
Arguments write_serialization host_order {IP LLC Parent} _ _ _ _.

End Loopback.

(** ** A concrete host: Linux on a little-endian machine *)

Module LinuxLE.

Definition host_order : endianness := LittleEndian.

(** <sys/socket.h> on Linux. *)
Definition PF_INET : Z := 2.
Definition PF_LLC : Z := 26.

(** Modelled from the spec: ip.cpp is not among the sources. The
    specification says that any constructor fails with BufferTooShort
    when [total_sz < header_size()], and an IPv4 header without options
    is 20 bytes (RFC 791). Only this size check is modelled; an accepted
    datagram is kept as its bytes. *)
Record IP : Type := mkIP { ip_bytes : list byte }.

Definition IP_header_size : nat := 20.

(** Modelled from the spec: the byte-buffer constructor of IP, reduced
    to its check of the buffer size against the header size. *)
Definition IP_from_buffer (buffer : list byte) : result IP :=
  if (length buffer <? IP_header_size)%nat then Error BufferTooShort
  else Ok (mkIP buffer).

(** Modelled from the spec: llc.cpp is not among the sources. As for
    IP, only the size check against the 3-byte LLC header (DSAP, SSAP,
    control; IEEE 802.2) is modelled. *)
Record LLC : Type := mkLLC { llc_bytes : list byte }.

Definition LLC_header_size : nat := 3.

(** Modelled from the spec: the byte-buffer constructor of LLC, reduced
    to its check of the buffer size against the header size. *)
Definition LLC_from_buffer (buffer : list byte) : result LLC :=
  if (length buffer <? LLC_header_size)%nat then Error BufferTooShort
  else Ok (mkLLC buffer).

(** The Loopback constructor and serializer of this host. *)
Definition Loopback_from_buffer : list byte -> result (Loopback.t IP LLC) :=
  Loopback.from_buffer host_order PF_INET PF_LLC IP LLC
    IP_from_buffer LLC_from_buffer.

Definition Loopback_write_serialization
  : Loopback.t IP LLC -> list byte -> nat -> option unit ->
    option (Loopback.t IP LLC * list byte) :=
  Loopback.write_serialization host_order.

End LinuxLE.

(** ** The PDU kind tags and the find-by-kind search *)

Module PDU.

(** Modelled from the spec: pdu.h is not among the sources. The
    specification lists the kind tags as a closed enumeration
    (ETHERNET, IP, TCP, UDP, DHCP, DOT11_BEACON, LOOPBACK, RAW, ...);
    the tags it names are the constructors here. *)
Inductive PDUType : Type :=
| ETHERNET
| IP
| TCP
| UDP
| DHCP
| DOT11_BEACON
| LOOPBACK
| RAW.

Definition PDUType_eqb (a b : PDUType) : bool :=
  match a, b with
  | ETHERNET, ETHERNET | IP, IP | TCP, TCP | UDP, UDP | DHCP, DHCP
  | DOT11_BEACON, DOT11_BEACON | LOOPBACK, LOOPBACK | RAW, RAW => true
  | _, _ => false
  end.

Section Find.

(** A chain of PDUs, outermost first: following [inner] from a PDU
    visits the list from its head on. [pdu_type] is the virtual
    method of the node's class. *)
Variable Node : Type.
Variable pdu_type : Node -> PDUType.

(** Modelled from the spec: [find<T>()] (pdu.h) walks the chain and
    returns the first PDU whose kind matches T, null otherwise. *)
Fixpoint find_pdu (kind : PDUType) (chain : list Node) : option Node :=
  match chain with
  | [] => None
  | p :: inner =>
      if PDUType_eqb (pdu_type p) kind then Some p
      else find_pdu kind inner
  end.

End Find.

Arguments find_pdu {Node} pdu_type kind chain.

End PDU.

(** ** DHCP (the dhcp.h header) *)

(** [struct DHCPOption]: the option number, the value's length in bytes
    and the value. The members are public and independent in the
    source; the constructor [DHCPOption(opt, len, val)] copies [len]
    bytes of [val]. *)
Module DHCPOption.

Record t : Type := mk {
  option : Z;
  length : Z;
  value : list byte
}.

End DHCPOption.

Module DHCP.

(** [enum Options]: the two sentinels. *)
Definition PAD : Z := 0.
Definition END : Z := 255.

(** [enum Flags] *)
Definition DISCOVER : Z := 1.
Definition OFFER : Z := 2.
Definition REQUEST : Z := 3.
Definition DECLINE : Z := 4.
Definition ACK : Z := 5.
Definition NAK : Z := 6.
Definition RELEASE : Z := 7.
Definition INFORM : Z := 8.

Definition DHCP_MESSAGE_TYPE : Z := 53.
Definition DHCP_SERVER_IDENTIFIER : Z := 54.

Section WithBootP.

(** The base class of bootp.h, with the bytes of its fixed header,
    and the byte order of the host. *)
Variable BootP : Type.
Variable BootP_header : BootP -> list byte.
Variable host_order : endianness.

(** [static const uint32_t MAX_DHCP_SIZE], declared in the header and
    defined in dhcp.cpp. *)
Variable MAX_DHCP_SIZE : Z.

(** The members the header declares, after the base class:
    [std::list<DHCPOption> _options] and [uint32_t _size]. *)
Record t : Type := mk {
  bootp : BootP;
  _options : list DHCPOption.t;
  _size : Z
}.

(** [const std::list<DHCPOption> options() const] *)
Definition options (d : t) : list DHCPOption.t := _options d.

(** [PDUType pdu_type() const { return PDU::UDP; }] *)
Definition pdu_type (d : t) : PDU.PDUType := PDU.UDP.

(** Modelled from the spec: [DHCP::DHCP()] is defined in dhcp.cpp,
    which is not among the sources. A fresh PDU has no option;
    [_size] counts the bytes of the options area, which then holds
    the 4-byte magic cookie and the END byte. *)
Definition default (b : BootP) : t := mk b [] 5.

(** Modelled from the spec: [DHCP::add_option] is defined in
    dhcp.cpp. Per the header it copies the value and returns whether
    the option was added, which may fail when there is not enough
    room; per the specification an insertion appends to the end,
    does not dedupe, and fails when it would exceed the protocol's
    maximum. An option takes two bytes plus its value. *)
Definition add_option (d : t) (opt len : Z) (val : list byte)
  : bool * t :=
  let opt_size := len + 2 in
  if MAX_DHCP_SIZE <? _size d + opt_size then (false, d)
  else
    (true,
     mk (bootp d)
        (_options d ++ [DHCPOption.mk opt len (firstn (Z.to_nat len) val)])
        (_size d + opt_size)).

(** Modelled from the spec: [DHCP::search_option] is defined in
    dhcp.cpp. It returns the option with the given code of lowest
    index, or null. *)
Fixpoint search_in (opts : list DHCPOption.t) (opt : Z)
  : Datatypes.option DHCPOption.t :=
  match opts with
  | [] => None
  | o :: rest =>
      if DHCPOption.option o =? opt then Some o else search_in rest opt
  end.

(** Modelled from the spec: [search_option] on the PDU's own list. *)
Definition search_option (d : t) (opt : Z)
  : Datatypes.option DHCPOption.t :=
  search_in (_options d) opt.

(** [template<class T> bool generic_search(Options opt, T *value)],
    from the header. [T] is an unsigned scalar of [sizeofT] bytes, as
    in the uses the header declares ([uint8_t] for the type option,
    [uint32_t] for the addresses and times), read from the option's
    value as the host stores it ([*value = *(T* )option->value]). The
    result is the returned flag and the content of [*value] after the
    call; [value] is its content before. *)
Definition generic_search (sizeofT : nat) (d : t) (opt : Z) (value : Z)
  : bool * Z :=
  match search_option d opt with
  | Some option =>
      if DHCPOption.length option =? Z.of_nat sizeofT then
        (true,
         host_decode host_order (firstn sizeofT (DHCPOption.value option)))
      else (false, value)
  | None => (false, value)
  end.

(** Modelled from the spec: one option on the wire is its code, its
    length and its value. *)
Definition write_option (o : DHCPOption.t) : list byte :=
  Z_to_byte (DHCPOption.option o) :: Z_to_byte (DHCPOption.length o)
    :: DHCPOption.value o.

(** The magic cookie 0x63825363, in network byte order. *)
Definition magic_cookie : list byte := be_encode 4 0x63825363.

(** Modelled from the spec: [DHCP::write_serialization] is declared
    in the header and defined in dhcp.cpp. The options area is the
    magic cookie, then the options one after the other in the order
    of the list, then the END sentinel; the loop below walks the
    list with the bytes written so far. DHCP asks for no alignment,
    so no PAD byte is written. The fixed BootP header is written
    before the area. *)
Definition write_options (opts : list DHCPOption.t) : list byte :=
  fold_left (fun written o => written ++ write_option o) opts
    magic_cookie
  ++ [Z_to_byte END].

(** Modelled from the spec: the serialization of the whole PDU, the
    inherited fixed header first, then the options area. *)
Definition write_serialization (d : t) : list byte :=
  BootP_header (bootp d) ++ write_options (_options d).

(** The calls a user makes on a PDU: each adds one option. *)
Fixpoint add_options (d : t) (calls : list (Z * Z * list byte)) : t :=
  match calls with
  | [] => d
  | (opt, len, val) :: rest =>
      add_options (snd (add_option d opt len val)) rest
  end.

(** The options among [calls] that [add_option] accepts, starting
    from the size [size]. *)
Fixpoint accepted (size : Z) (calls : list (Z * Z * list byte))
  : list DHCPOption.t :=
  match calls with
  | [] => []
  | (opt, len, val) :: rest =>
      if MAX_DHCP_SIZE <? size + (len + 2) then accepted size rest
      else DHCPOption.mk opt len (firstn (Z.to_nat len) val)
             :: accepted (size + (len + 2)) rest
  end.

End WithBootP.

Arguments mk {BootP} _ _ _.
Arguments bootp {BootP} _.
Arguments _options {BootP} _.
Arguments _size {BootP} _.
Arguments options {BootP} _.
Arguments pdu_type {BootP} _.
Arguments default {BootP} _.
Arguments add_option {BootP} _ _ _ _ _.
Arguments search_option {BootP} _ _.
Arguments generic_search {BootP} _ _ _ _ _.
Arguments write_serialization {BootP} _ _.
Arguments add_options {BootP} _ _ _.

(** A node of a PDU chain: a DHCP object, or an object of another
    class, of which only the kind tag matters to the search. *)
Inductive node (BootP : Type) : Type :=
| DHCP_node (d : t BootP)
| other_node (kind : PDU.PDUType).

Arguments DHCP_node {BootP} d.
Arguments other_node {BootP} kind.

(** The virtual call [pdu->pdu_type()]. *)
Definition node_pdu_type {BootP : Type} (n : node BootP) : PDU.PDUType :=
  match n with
  | DHCP_node d => pdu_type d
  | other_node kind => kind
  end.

End DHCP.

(** ** A concrete DHCP PDU: scenario 4 of the specification *)

Module DHCPExample.

(** The fixed BootP header, kept as its 236 bytes. *)
Definition BootP : Type := list byte.
Definition BootP_header (b : BootP) : list byte := b.

(** The options area of a minimal 576-byte datagram. *)
Definition MAX_DHCP_SIZE : Z := 312.

Definition DHCP_REQUESTED_ADDRESS : Z := 50.

(** Message type REQUEST, requested address 192.0.2.5, server
    identifier 192.0.2.1. *)
Definition request : DHCP.t BootP :=
  DHCP.add_options MAX_DHCP_SIZE (DHCP.default (repeat x00 236))
    [ (DHCP.DHCP_MESSAGE_TYPE, 1, [x03]);
      (DHCP_REQUESTED_ADDRESS, 4, [xc0; x00; x02; x05]);
      (DHCP.DHCP_SERVER_IDENTIFIER, 4, [xc0; x00; x02; x01]) ].

(** A chain Loopback, IP, DHCP, assembled without a UDP layer. *)
Definition chain : list (DHCP.node BootP) :=
  [ DHCP.other_node PDU.LOOPBACK; DHCP.other_node PDU.IP;
    DHCP.DHCP_node request ].

End DHCPExample.

(** ** Dot11Beacon *)

Module Dot11Beacon.

(** Modelled from the spec: dot11.h and dot11.cpp are not among the
    sources, only the tests of the beacon are
    (src/tests/src/dot11/beacon.cpp). The specification describes the
    frame as a fixed header followed by tagged elements
    [(tag: u8, length: u8, value: bytes)] with no end sentinel, the
    list ending at the buffer boundary; 802.11 fields are
    little-endian; the MAC frame follows IEEE 802.11: frame control,
    duration, three addresses and sequence control (24 bytes), then
    the beacon's timestamp (8 bytes), interval (2) and capability
    information (2). The values the tests read from their buffers fix
    the positions. *)
Record tagged_option : Type := mk_option {
  option : Z;
  length : Z;
  value : list byte
}.

(** Modelled from the spec: the beacon, with its elements in the order
    they were inserted and the one fact about its history that the
    serializer consults: whether the caller has injected an unknown
    tag. *)
Record t : Type := mk {
  frame_control : Z;
  duration_id : Z;
  addr1 : list byte;
  addr2 : list byte;
  addr3 : list byte;
  seq_control : Z;
  timestamp : Z;
  interval : Z;
  capabilities : Z;
  options : list tagged_option;
  injected_unknown : bool
}.

Definition mac_header_size : nat := 24.
Definition beacon_body_size : nat := 12.

(** The fixed part: what [header_size()] of a beacon without elements
    is. *)
Definition fixed_size : nat := (mac_header_size + beacon_body_size)%nat.

(** Modelled from the spec: the subtype is the high half of the first
    frame-control byte (8 in the 0x81 of the tests' beacon). *)
Definition subtype (b : t) : Z := (frame_control b / 16) mod 16.

(** Modelled from the spec: the capability-information bits, in the
    order of the specification's glossary, least significant first. *)
Definition ess (b : t) : bool := Z.testbit (capabilities b) 0.
Definition ibss (b : t) : bool := Z.testbit (capabilities b) 1.
Definition cf_poll (b : t) : bool := Z.testbit (capabilities b) 2.
Definition cf_poll_req (b : t) : bool := Z.testbit (capabilities b) 3.
Definition privacy (b : t) : bool := Z.testbit (capabilities b) 4.
Definition short_preamble (b : t) : bool := Z.testbit (capabilities b) 5.
Definition pbcc (b : t) : bool := Z.testbit (capabilities b) 6.
Definition channel_agility (b : t) : bool := Z.testbit (capabilities b) 7.
Definition spectrum_mgmt (b : t) : bool := Z.testbit (capabilities b) 8.
Definition qos (b : t) : bool := Z.testbit (capabilities b) 9.
Definition sst (b : t) : bool := Z.testbit (capabilities b) 10.
Definition apsd (b : t) : bool := Z.testbit (capabilities b) 11.
Definition reserved (b : t) : bool := Z.testbit (capabilities b) 12.
Definition dsss_ofdm (b : t) : bool := Z.testbit (capabilities b) 13.
Definition delayed_block_ack (b : t) : bool := Z.testbit (capabilities b) 14.
Definition immediate_block_ack (b : t) : bool :=
  Z.testbit (capabilities b) 15.

(** Reads [n] bytes at the cursor and moves the cursor. *)
Definition take (n : nat) (buffer : list byte) : list byte * list byte :=
  (firstn n buffer, skipn n buffer).

Section Parse.

(** What the parser does when a single byte remains, a tag with no
    length byte. The specification does not say: [Some e] is a parser
    that fails with [e], [None] one that stops there and keeps the
    elements read so far. Nothing below depends on which it is. *)
Variable lone_byte : Datatypes.option error.

(** Modelled from the spec: the parse of the tagged elements. Iterate;
    for each triple verify that the declared length does not exceed
    what remains, else fail with TruncatedOption; stop at the buffer
    boundary. Each round consumes at least two bytes; [fuel] bounds
    the rounds and [None] is the loop cut short by it. *)
Fixpoint parse_tagged_parameters (fuel : nat) (buffer : list byte)
  : Datatypes.option (result (list tagged_option)) :=
  match buffer with
  | [] => Some (Ok [])
  | [_] =>
      match lone_byte with
      | Some e => Some (Error e)
      | None => Some (Ok [])
      end
  | opcode :: len :: rest =>
      let n := Z.to_nat (byte_to_Z len) in
      if (Datatypes.length rest <? n)%nat then Some (Error TruncatedOption)
      else
        match fuel with
        | O => None
        | S fuel' =>
            match parse_tagged_parameters fuel' (skipn n rest) with
            | Some (Ok opts) =>
                Some (Ok (mk_option (byte_to_Z opcode) (byte_to_Z len)
                            (firstn n rest) :: opts))
            | other => other
            end
        end
  end.

(** Modelled from the spec: the byte-buffer constructor. It fails with
    BufferTooShort when the buffer is smaller than the fixed header,
    decodes the fields in wire order and hands the rest to the
    tagged-element parser, whose failure is the constructor's. The
    elements are held in the order of the buffer; the caller has
    injected nothing. The loop gets as many rounds as the buffer has
    bytes. *)
Definition from_buffer (buffer : list byte) : result t :=
  if (Datatypes.length buffer <? fixed_size)%nat then Error BufferTooShort
  else
    let '(fc, buffer) := take 2 buffer in
    let '(dur, buffer) := take 2 buffer in
    let '(a1, buffer) := take 6 buffer in
    let '(a2, buffer) := take 6 buffer in
    let '(a3, buffer) := take 6 buffer in
    let '(seq, buffer) := take 2 buffer in
    let '(ts, buffer) := take 8 buffer in
    let '(itv, buffer) := take 2 buffer in
    let '(cap, buffer) := take 2 buffer in
    match parse_tagged_parameters (Datatypes.length buffer) buffer with
    | Some (Ok opts) =>
        Ok (mk (le_decode fc) (le_decode dur) a1 a2 a3 (le_decode seq)
               (le_decode ts) (le_decode itv) (le_decode cap) opts false)
    | Some (Error e) => Error e
    | None => Error MalformedOption
    end.

End Parse.

(** Modelled from the spec: one element on the wire is its tag, its
    length and its value. *)
Definition write_option (o : tagged_option) : list byte :=
  Z_to_byte (option o) :: Z_to_byte (length o) :: value o.

(** Modelled from the spec: the canonical order is tag-ascending.
    [insert_by_tag] puts an element before the first element of an
    ordered list whose tag is not smaller; sorting a list element by
    element from its end keeps elements of equal tag in their order
    (the two vendor elements of the [PCAPLoad1] buffer stay as they
    are). *)
Fixpoint insert_by_tag (o : tagged_option) (opts : list tagged_option)
  : list tagged_option :=
  match opts with
  | [] => [o]
  | x :: rest =>
      if option o <=? option x then o :: x :: rest
      else x :: insert_by_tag o rest
  end.

Definition canonical_order (opts : list tagged_option)
  : list tagged_option :=
  fold_right insert_by_tag [] opts.

(** Modelled from the spec: serialization writes the fixed header,
    field by field, then the elements, with no end sentinel. The
    serializer emits the elements in canonical order if the caller has
    not injected unknown tags; otherwise insertion order is
    preserved. *)
Definition emitted_options (b : t) : list tagged_option :=
  if injected_unknown b then options b else canonical_order (options b).

Definition serialize (b : t) : list byte :=
  le_encode 2 (frame_control b) ++ le_encode 2 (duration_id b)
    ++ addr1 b ++ addr2 b ++ addr3 b
    ++ le_encode 2 (seq_control b)
    ++ le_encode 8 (timestamp b) ++ le_encode 2 (interval b)
    ++ le_encode 2 (capabilities b)
    ++ flat_map write_option (emitted_options b).

(** Modelled from the spec: the size of the PDU is its fixed header
    plus, for each element, two bytes and the declared length. *)
Definition size (b : t) : nat :=
  (fixed_size
   + fold_right (fun o n => 2 + Z.to_nat (length o) + n) 0 (options b))%nat.

(** Modelled from the spec: lookup is a linear search by code that
    returns the first match; the typed getters of the tests ([ssid()],
    [ds_parameter_set()], ...) read the element it finds. *)
Fixpoint search_option (opts : list tagged_option) (tag : Z)
  : Datatypes.option tagged_option :=
  match opts with
  | [] => None
  | o :: rest => if option o =? tag then Some o else search_option rest tag
  end.

(** The elements are in ascending order of tag (equal tags may
    follow each other). *)
Fixpoint ascending (opts : list tagged_option) : Prop :=
  match opts with
  | [] => True
  | o :: rest =>
      match rest with
      | [] => True
      | x :: _ => option o <= option x /\ ascending rest
      end
  end.

(** An element as a parse produces it: the tag is a byte and the
    length is that of the value. *)
Definition well_formed_option (o : tagged_option) : Prop :=
  0 <= option o < 256
  /\ length o = Z.of_nat (Datatypes.length (value o))
  /\ length o < 256.

(** A beacon whose fields fit their encoded widths. *)
Definition well_formed (b : t) : Prop :=
  0 <= frame_control b < 2 ^ 16
  /\ 0 <= duration_id b < 2 ^ 16
  /\ Datatypes.length (addr1 b) = 6%nat
  /\ Datatypes.length (addr2 b) = 6%nat
  /\ Datatypes.length (addr3 b) = 6%nat
  /\ 0 <= seq_control b < 2 ^ 16
  /\ 0 <= timestamp b < 2 ^ 64
  /\ 0 <= interval b < 2 ^ 16
  /\ 0 <= capabilities b < 2 ^ 16
  /\ Forall well_formed_option (options b).

(** [Dot11BeaconTest::expected_packet] *)
Definition expected_packet : list byte :=
  [ x81; x01; x4f; x23; x00; x01; x02; x03; x04; x05; x01; x02;
    x03; x04; x05; x06; x02; x03; x04; x05; x06; x07; x00; x00;
    xfa; x01; x93; x28; x41; x23; xad; x1f; xfa; x14; x95; x20 ].

(** The buffer of the test [PCAPLoad1]. *)
Definition pcap_buffer : list byte :=
  [ x80; x00; x00; x00; xff; xff; xff; xff; xff; xff; xf4; xec;
    x38; xfe; x4d; x92; xf4; xec; x38; xfe; x4d; x92; xe0; xea;
    x80; xd1; xd4; xce; x2c; x00; x00; x00; x64; x00; x31; x04;
    x00; x07; x53; x65; x67; x75; x6e; x64; x6f; x01; x08; x82;
    x84; x8b; x96; x0c; x12; x18; x24; x03; x01; x01; x05; x04;
    x00; x01; x00; x00; x07; x06; x55; x53; x20; x01; x0d; x14;
    x2a; x01; x00; x30; x14; x01; x00; x00; x0f; xac; x04; x01;
    x00; x00; x0f; xac; x04; x01; x00; x00; x0f; xac; x02; x00;
    x00; x32; x04; x30; x48; x60; x6c; xdd; x18; x00; x50; xf2;
    x02; x01; x01; x03; x00; x03; xa4; x00; x00; x27; xa4; x00;
    x00; x42; x43; x5e; x00; x62; x32; x2f; x00; xdd; x09; x00;
    x03; x7f; x01; x01; x00; x00; xff; x7f ].


End Dot11Beacon.

(** ** The enumerations of dhcp.h *)

Module DHCPEnum.

Import Stdlib.Strings.String.StringSyntax.
Local Open Scope string_scope.

(** An enumeration as the header declares it: the enumerators in the
    order of the source, each with the initializer the source gives
    it, if any. *)
Definition declaration : Type := list (String.string * Datatypes.option Z).

(** The values C gives the enumerators: an initializer is the value;
    without one the value is the previous enumerator's plus one, and 0
    for the first. *)
Fixpoint enum_values (next : Z) (decl : declaration)
  : list (String.string * Z) :=
  match decl with
  | [] => []
  | (name, Some v) :: rest => (name, v) :: enum_values (v + 1) rest
  | (name, None) :: rest => (name, next) :: enum_values (next + 1) rest
  end.

(** The value of an enumerator, by name. *)
Fixpoint value_of (values : list (String.string * Z)) (name : String.string)
  : Datatypes.option Z :=
  match values with
  | [] => None
  | (n, v) :: rest =>
      if String.eqb n name then Some v else value_of rest name
  end.

(** [enum Flags] *)
Definition Flags : declaration :=
  [ ("DISCOVER", Some 1);
    ("OFFER", Some 2);
    ("REQUEST", Some 3);
    ("DECLINE", Some 4);
    ("ACK", Some 5);
    ("NAK", Some 6);
    ("RELEASE", Some 7);
    ("INFORM", Some 8) ].

(** [enum Options] *)
Definition Options : declaration :=
  [ ("PAD", None);
    ("SUBNET_MASK", None);
    ("TIME_OFFSET", None);
    ("ROUTERS", None);
    ("TIME_SERVERS", None);
    ("NAME_SERVERS", None);
    ("DOMAIN_NAME_SERVERS", None);
    ("LOG_SERVERS", None);
    ("COOKIE_SERVERS", None);
    ("LPR_SERVERS", None);
    ("IMPRESS_SERVERS", None);
    ("RESOURCE_LOCATION_SERVERS", None);
    ("HOST_NAME", None);
    ("BOOT_SIZE", None);
    ("MERIT_DUMP", None);
    ("DOMAIN_NAME", None);
    ("SWAP_SERVER", None);
    ("ROOT_PATH", None);
    ("EXTENSIONS_PATH", None);
    ("IP_FORWARDING", None);
    ("NON_LOCAL_SOURCE_ROUTING", None);
    ("POLICY_FILTER", None);
    ("MAX_DGRAM_REASSEMBLY", None);
    ("DEFAULT_IP_TTL", None);
    ("PATH_MTU_AGING_TIMEOUT", None);
    ("PATH_MTU_PLATEAU_TABLE", None);
    ("INTERFACE_MTU", None);
    ("ALL_SUBNETS_LOCAL", None);
    ("BROADCAST_ADDRESS", None);
    ("PERFORM_MASK_DISCOVERY", None);
    ("MASK_SUPPLIER", None);
    ("ROUTER_DISCOVERY", None);
    ("ROUTER_SOLICITATION_ADDRESS", None);
    ("STATIC_ROUTES", None);
    ("TRAILER_ENCAPSULATION", None);
    ("ARP_CACHE_TIMEOUT", None);
    ("IEEE802_3_ENCAPSULATION", None);
    ("DEFAULT_TCP_TTL", None);
    ("TCP_KEEPALIVE_INTERVAL", None);
    ("TCP_KEEPALIVE_GARBAGE", None);
    ("NIS_DOMAIN", None);
    ("NIS_SERVERS", None);
    ("NTP_SERVERS", None);
    ("VENDOR_ENCAPSULATED_OPTIONS", None);
    ("NETBIOS_NAME_SERVERS", None);
    ("NETBIOS_DD_SERVER", None);
    ("NETBIOS_NODE_TYPE", None);
    ("NETBIOS_SCOPE", None);
    ("FONT_SERVERS", None);
    ("X_DISPLAY_MANAGER", None);
    ("DHCP_REQUESTED_ADDRESS", None);
    ("DHCP_LEASE_TIME", None);
    ("DHCP_OPTION_OVERLOAD", None);
    ("DHCP_MESSAGE_TYPE", None);
    ("DHCP_SERVER_IDENTIFIER", None);
    ("DHCP_PARAMETER_REQUEST_LIST", None);
    ("DHCP_MESSAGE", None);
    ("DHCP_MAX_MESSAGE_SIZE", None);
    ("DHCP_RENEWAL_TIME", None);
    ("DHCP_REBINDING_TIME", None);
    ("VENDOR_CLASS_IDENTIFIER", None);
    ("DHCP_CLIENT_IDENTIFIER", None);
    ("NWIP_DOMAIN_NAME", None);
    ("NWIP_SUBOPTIONS", None);
    ("USER_CLASS", Some 77);
    ("FQDN", Some 81);
    ("DHCP_AGENT_OPTIONS", Some 82);
    ("SUBNET_SELECTION", Some 118);
    ("AUTHENTICATE", Some 210);
    ("END", Some 255) ].

Definition Flags_values : list (String.string * Z) := enum_values 0 Flags.
Definition Options_values : list (String.string * Z) :=
  enum_values 0 Options.

End DHCPEnum.

(** * Proofs *)

(** * Results *)

Lemma Ok_inj {A : Type} (a b : A) : Ok a = Ok b -> a = b.
Proof. now intros [= ->]. Qed.


(** * Codec lemmas *)

Lemma byte_to_Z_range (b : byte) : 0 <= byte_to_Z b < 256.
Proof.
  unfold byte_to_Z. pose proof (Byte.to_N_bounded b). lia.
Qed.

Lemma Z_to_byte_to_Z (b : byte) : Z_to_byte (byte_to_Z b) = b.
Proof.
  unfold Z_to_byte. pose proof (byte_to_Z_range b) as Hr.
  rewrite Z.mod_small by exact Hr.
  unfold byte_to_Z. rewrite N2Z.id, Byte.of_to_N. reflexivity.
Qed.

Lemma byte_to_Z_to_byte (z : Z) : byte_to_Z (Z_to_byte z) = z mod 256.
Proof.
  unfold Z_to_byte, byte_to_Z.
  pose proof (Z.mod_pos_bound z 256 ltac:(lia)) as Hr.
  destruct (Byte.of_N (Z.to_N (z mod 256))) as [b|] eqn:E.
  - apply Byte.to_of_N in E. rewrite E. lia.
  - apply Byte.of_N_None_iff in E. lia.
Qed.

Lemma Z_to_byte_mod (z : Z) : Z_to_byte (z mod 256) = Z_to_byte z.
Proof.
  unfold Z_to_byte. rewrite Z.mod_mod by lia. reflexivity.
Qed.

Lemma le_encode_length (n : nat) (v : Z) : length (le_encode n v) = n.
Proof.
  revert v. induction n as [|n IH]; intros v; simpl; [reflexivity|].
  now rewrite IH.
Qed.

Lemma le_decode_range (bs : list byte) :
  0 <= le_decode bs < 256 ^ Z.of_nat (length bs).
Proof.
  induction bs as [|b bs IH].
  - simpl. lia.
  - cbn [le_decode length]. rewrite Nat2Z.inj_succ, Z.pow_succ_r by lia.
    pose proof (byte_to_Z_range b). lia.
Qed.

(** Writing what was read gives the bytes back. *)
Lemma le_encode_decode (bs : list byte) :
  le_encode (length bs) (le_decode bs) = bs.
Proof.
  induction bs as [|b bs IH]; [reflexivity|].
  cbn [le_decode length le_encode].
  pose proof (byte_to_Z_range b) as Hb.
  f_equal.
  - rewrite <- Z_to_byte_mod.
    replace ((byte_to_Z b + 256 * le_decode bs) mod 256) with (byte_to_Z b).
    + apply Z_to_byte_to_Z.
    + apply (Z.mod_unique _ _ (le_decode bs)); lia.
  - replace ((byte_to_Z b + 256 * le_decode bs) / 256) with (le_decode bs);
      [exact IH|].
    apply (Z.div_unique _ _ _ (byte_to_Z b)); lia.
Qed.

(** Reading what was written gives the value back, reduced to the width. *)
Lemma le_decode_encode (n : nat) (v : Z) :
  le_decode (le_encode n v) = v mod 256 ^ Z.of_nat n.
Proof.
  revert v. induction n as [|n IH]; intros v.
  - simpl. now rewrite Z.mod_1_r.
  - cbn [le_encode le_decode]. rewrite IH, byte_to_Z_to_byte.
    rewrite Nat2Z.inj_succ, Z.pow_succ_r by lia.
    rewrite Z.rem_mul_r by lia. reflexivity.
Qed.

Lemma host_encode_length (e : endianness) (n : nat) (v : Z) :
  length (host_encode e n v) = n.
Proof.
  destruct e; unfold host_encode, be_encode;
    rewrite ?length_rev; apply le_encode_length.
Qed.

Lemma host_encode_decode (e : endianness) (bs : list byte) :
  host_encode e (length bs) (host_decode e bs) = bs.
Proof.
  destruct e; unfold host_encode, host_decode, be_encode, be_decode.
  - apply le_encode_decode.
  - rewrite <- (length_rev bs), le_encode_decode. apply rev_involutive.
Qed.

Lemma host_decode_encode (e : endianness) (n : nat) (v : Z) :
  host_decode e (host_encode e n v) = v mod 256 ^ Z.of_nat n.
Proof.
  destruct e; unfold host_encode, host_decode, be_encode, be_decode;
    rewrite ?rev_involutive; apply le_decode_encode.
Qed.

Lemma host_decode_range (e : endianness) (bs : list byte) :
  0 <= host_decode e bs < 256 ^ Z.of_nat (length bs).
Proof.
  destruct e; unfold host_decode, be_decode.
  - apply le_decode_range.
  - rewrite <- (length_rev bs). apply le_decode_range.
Qed.

(** * Loopback *)

Module LoopbackSpec.

Import Loopback.

Section Host.

Variable host_order : endianness.
Variables PF_INET PF_LLC : Z.
Variables IP LLC : Type.
Variable IP_from_buffer : list byte -> result IP.
Variable LLC_from_buffer : list byte -> result LLC.

Local Abbreviation from_buffer :=
  (Loopback.from_buffer host_order PF_INET PF_LLC IP LLC
     IP_from_buffer LLC_from_buffer).
Local Abbreviation inner_from_buffer :=
  (Loopback.inner_from_buffer PF_INET PF_LLC IP LLC
     IP_from_buffer LLC_from_buffer).
Local Abbreviation read_family buffer :=
  (host_decode host_order (firstn sizeof_family buffer)).

(** The constructor, case by case on the size of the buffer. *)
Lemma from_buffer_short (buffer : list byte) :
  (length buffer < 4)%nat -> from_buffer buffer = Error BufferTooShort.
Proof.
  intros H. unfold Loopback.from_buffer, sizeof_family.
  apply Nat.ltb_lt in H. now rewrite H.
Qed.

Lemma from_buffer_header_only (buffer : list byte) :
  length buffer = 4%nat ->
  from_buffer buffer = Ok (mk (read_family buffer) None).
Proof.
  intros H. unfold Loopback.from_buffer, sizeof_family.
  rewrite H. reflexivity.
Qed.

Lemma from_buffer_long (buffer : list byte) :
  (4 < length buffer)%nat ->
  from_buffer buffer =
  (inner <- inner_from_buffer (read_family buffer)
              (skipn sizeof_family buffer) ;;
   Ok (mk (read_family buffer) (Some inner)))%result.
Proof.
  intros H. unfold Loopback.from_buffer, Loopback.inner_from_buffer,
    sizeof_family.
  destruct (length buffer <? 4)%nat eqn:E1;
    [apply Nat.ltb_lt in E1; lia|].
  destruct (length buffer - 4 =? 0)%nat eqn:E2;
    [apply Nat.eqb_eq in E2; lia|].
  destruct (_ =? PF_INET); [now destruct (IP_from_buffer _)|].
  destruct (_ =? PF_LLC); [now destruct (LLC_from_buffer _)|].
  reflexivity.
Qed.

Lemma from_buffer_family (buffer : list byte) (p : t IP LLC) :
  from_buffer buffer = Ok p -> _family p = read_family buffer.
Proof.
  destruct (Nat.lt_total (length buffer) 4) as [H|[H|H]].
  - rewrite from_buffer_short by exact H. discriminate.
  - rewrite from_buffer_header_only by exact H.
    intros [= <-]. reflexivity.
  - rewrite from_buffer_long by exact H.
    destruct (inner_from_buffer _ _); simpl; [|discriminate].
    intros [= <-]. reflexivity.
Qed.

(** C2, as amended: the constructor fails with BufferTooShort when
    the buffer has fewer than 4 bytes; on a buffer of at least 4
    bytes it fails exactly when bytes remain after the family and
    the inner constructor the family selects fails on them, with
    that constructor's error; whenever it succeeds, the family field
    is the first 4 bytes of the buffer. *)
Theorem from_buffer_failure (buffer : list byte) :
  ((length buffer < 4)%nat -> from_buffer buffer = Error BufferTooShort)
  /\ ((4 <= length buffer)%nat ->
      forall e,
        from_buffer buffer = Error e <->
        (4 < length buffer)%nat /\
        inner_from_buffer (read_family buffer)
          (skipn sizeof_family buffer) = Error e)
  /\ (forall p, from_buffer buffer = Ok p ->
                _family p = read_family buffer).
Proof.
  split; [apply from_buffer_short|].
  split; [|apply from_buffer_family].
  intros Hlen e.
  destruct (Nat.eq_dec (length buffer) 4) as [H4|H4].
  - rewrite from_buffer_header_only by exact H4.
    split; [discriminate|]. intros [Hlt _]. lia.
  - assert (Hlt : (4 < length buffer)%nat) by lia.
    rewrite from_buffer_long by exact Hlt.
    destruct (inner_from_buffer _ _) as [inner|e']; simpl.
    + split; [discriminate|]. intros [_ Hf]. discriminate.
    + split.
      * intros [= ->]. now split.
      * intros [_ [= ->]]. reflexivity.
Qed.

(** C3, as amended: when the buffer has more than 4 bytes and the
    inner constructor the family selects fails on the bytes after
    the family, the Loopback constructor fails with the same error:
    the failure propagates and no PDU is returned. *)
Theorem from_buffer_inner_failure (buffer : list byte) (e : error) :
  (4 < length buffer)%nat ->
  inner_from_buffer (read_family buffer) (skipn sizeof_family buffer)
    = Error e ->
  from_buffer buffer = Error e.
Proof.
  intros Hlt Hinner.
  rewrite from_buffer_long by exact Hlt.
  now rewrite Hinner.
Qed.

(** C4, as amended: on a buffer of more than 4 bytes the constructor
    hands the bytes after the first 4 to the constructor the family
    selects, IP for PF_INET and LLC for PF_LLC, and attaches the PDU
    it returns as the inner PDU; when that constructor fails, the
    Loopback constructor fails with it. For every other family the
    inner PDU is a RawPDU holding exactly those bytes. *)
Theorem from_buffer_inner (buffer : list byte) :
  (4 < length buffer)%nat ->
  let family := read_family buffer in
  let residual := skipn sizeof_family buffer in
  (family = PF_INET ->
   from_buffer buffer =
   (ip <- IP_from_buffer residual ;;
    Ok (mk family (Some (PDU_IP ip))))%result)
  /\ (family <> PF_INET -> family = PF_LLC ->
      from_buffer buffer =
      (llc <- LLC_from_buffer residual ;;
       Ok (mk family (Some (PDU_LLC llc))))%result)
  /\ (family <> PF_INET -> family <> PF_LLC ->
      from_buffer buffer =
      Ok (mk family (Some (PDU_RawPDU (RawPDU.mk residual))))).
Proof.
  intros Hlt family residual.
  rewrite from_buffer_long by exact Hlt.
  unfold Loopback.inner_from_buffer. fold family. fold residual.
  repeat split.
  - intros H. apply Z.eqb_eq in H. rewrite H.
    now destruct (IP_from_buffer residual).
  - intros H1 H2. apply Z.eqb_neq in H1. apply Z.eqb_eq in H2.
    rewrite H1, H2. now destruct (LLC_from_buffer residual).
  - intros H1 H2. apply Z.eqb_neq in H1, H2. now rewrite H1, H2.
Qed.

(** What [write_serialization] returns when its assertion holds and
    the buffer has the bytes. *)
Lemma write_serialization_eq {Parent : Type} (p : t IP LLC)
    (buffer : list byte) (total_sz : nat) (parent : option Parent) :
  (4 <= total_sz <= length buffer)%nat ->
  write_serialization host_order p buffer total_sz parent =
  Some (p, host_encode host_order 4 (_family p) ++ skipn 4 buffer).
Proof.
  intros [H1 H2]. unfold write_serialization, store, sizeof_family.
  destruct (total_sz <? 4)%nat eqn:E1; [apply Nat.ltb_lt in E1; lia|].
  destruct (length buffer <? 4)%nat eqn:E2;
    [apply Nat.ltb_lt in E2; lia|].
  reflexivity.
Qed.

(** C5: the family is read and written as the host stores it, with
    no conversion: a Loopback built from a buffer holds the
    host-order reading of its first 4 bytes, and
    [write_serialization] puts these 4 bytes back unchanged. *)
Theorem family_round_trip {Parent : Type} (buffer : list byte)
    (p : t IP LLC) (out : list byte) (total_sz : nat)
    (parent : option Parent) :
  (4 <= length buffer)%nat ->
  from_buffer buffer = Ok p ->
  (4 <= total_sz <= length out)%nat ->
  _family p = host_decode host_order (firstn 4 buffer)
  /\ exists out',
      write_serialization host_order p out total_sz parent
        = Some (p, out')
      /\ firstn 4 out' = firstn 4 buffer.
Proof.
  intros Hlen Hp Hout.
  pose proof (from_buffer_family _ _ Hp) as Hfam.
  split; [exact Hfam|].
  eexists. split; [apply write_serialization_eq; exact Hout|].
  rewrite Hfam. unfold sizeof_family.
  assert (Hl : length (firstn 4 buffer) = 4%nat)
    by (rewrite length_firstn; lia).
  rewrite <- Hl at 2. rewrite host_encode_decode.
  rewrite firstn_app, Hl, Nat.sub_diag, firstn_O, app_nil_r.
  rewrite <- Hl at 1. apply firstn_all.
Qed.

(** C9: a buffer of exactly 4 bytes is accepted and yields a PDU with
    no inner PDU, whatever the family. *)
Theorem from_buffer_exactly_four (buffer : list byte) :
  length buffer = 4%nat ->
  from_buffer buffer =
  Ok (mk (host_decode host_order buffer) None).
Proof.
  intros H. rewrite from_buffer_header_only by exact H.
  unfold sizeof_family. rewrite <- H, firstn_all. reflexivity.
Qed.

(** C10: [write_serialization] overwrites the first 4 bytes of the
    buffer with the family and nothing else: the bytes from offset 4
    on and the length of the buffer are unchanged, the object is
    unchanged, and the parent plays no part. *)
Theorem write_serialization_frame {Parent : Type} (p : t IP LLC)
    (buffer : list byte) (total_sz : nat) (parent : option Parent) :
  (4 <= total_sz <= length buffer)%nat ->
  exists buffer',
    write_serialization host_order p buffer total_sz parent
      = Some (p, buffer')
    /\ firstn 4 buffer' = host_encode host_order 4 (_family p)
    /\ skipn 4 buffer' = skipn 4 buffer
    /\ length buffer' = length buffer
    /\ (forall i, (4 <= i)%nat ->
                  nth_error buffer' i = nth_error buffer i)
    /\ (forall (Parent' : Type) (parent' : option Parent'),
          write_serialization host_order p buffer total_sz parent'
          = Some (p, buffer')).
Proof.
  intros H. eexists. split; [apply write_serialization_eq; exact H|].
  pose proof (host_encode_length host_order 4 (_family p)) as Hl.
  assert (Hskip : skipn 4 (host_encode host_order 4 (_family p)
                             ++ skipn 4 buffer) = skipn 4 buffer).
  { rewrite skipn_app, Hl, Nat.sub_diag.
    rewrite <- Hl at 1. rewrite skipn_all. reflexivity. }
  repeat split.
  - rewrite firstn_app, Hl, Nat.sub_diag, firstn_O, app_nil_r.
    rewrite <- Hl at 1. apply firstn_all.
  - exact Hskip.
  - rewrite length_app, Hl, length_skipn. lia.
  - intros i Hi.
    replace i with (4 + (i - 4))%nat by lia.
    rewrite <- !nth_error_skipn, Hskip. reflexivity.
  - intros Parent' parent'. apply write_serialization_eq; exact H.
Qed.

End Host.

(** ** On a little-endian Linux host *)

Local Abbreviation linux_thm thm :=
  (thm LinuxLE.host_order LinuxLE.PF_INET LinuxLE.PF_LLC
     LinuxLE.IP LinuxLE.LLC LinuxLE.IP_from_buffer LinuxLE.LLC_from_buffer).

(** Scenario 2 of the specification: three bytes are rejected. *)
Example loopback_truncation :
  LinuxLE.Loopback_from_buffer [x02; x00; x00] = Error BufferTooShort.
Proof. reflexivity. Qed.

(** Scenario 3 of the specification: an unknown family. *)
Example loopback_unknown_family :
  LinuxLE.Loopback_from_buffer [xff; xff; xff; xff; x01; x02; x03]
  = Ok (mk 0xFFFFFFFF (Some (PDU_RawPDU (RawPDU.mk [x01; x02; x03])))).
Proof. reflexivity. Qed.

(** The family is the host's reading of the bytes: the same four bytes
    are another family on a big-endian host. *)
Example loopback_family_host_order :
  host_decode LittleEndian [x02; x00; x00; x00] = 2
  /\ host_decode BigEndian [x02; x00; x00; x00] = 0x02000000.
Proof. split; reflexivity. Qed.

(** C2, against the claim as stated: a buffer of 5 bytes, at least 4,
    on which the constructor fails, because the IP constructor it
    calls on the one remaining byte does. *)
Lemma from_buffer_fails_on_five_bytes :
  let buffer := [x02; x00; x00; x00; x01] in
  (4 <= length buffer)%nat
  /\ LinuxLE.Loopback_from_buffer buffer = Error BufferTooShort.
Proof. split; [simpl; lia | reflexivity]. Qed.

Lemma from_buffer_failure_witness :
  let short := [x02; x00; x00] in
  let long := [x02; x00; x00; x00; x01] in
  let raw := [xff; xff; xff; xff; x01; x02; x03] in
  LinuxLE.Loopback_from_buffer short = Error BufferTooShort
  /\ LinuxLE.Loopback_from_buffer long = Error BufferTooShort
  /\ (forall p, LinuxLE.Loopback_from_buffer raw = Ok p ->
                _family p = 0xFFFFFFFF).
Proof.
  intros short long raw. split; [|split].
  - apply (proj1 (linux_thm from_buffer_failure short)).
    simpl; lia.
  - apply (proj1 (proj2 (linux_thm from_buffer_failure long))).
    + simpl; lia.
    + split; [simpl; lia | reflexivity].
  - intros p Hp.
    exact (proj2 (proj2 (linux_thm from_buffer_failure raw)) p Hp).
Defined.

(** C3, against the claim as stated: the header is read, the IP
    constructor fails on the two bytes that follow, and the
    constructor returns no PDU at all, rather than one without inner
    PDU. *)
Lemma from_buffer_inner_failure_is_fatal :
  let buffer := [x02; x00; x00; x00; x45; x00] in
  (4 < length buffer)%nat
  /\ LinuxLE.IP_from_buffer (skipn 4 buffer) = Error BufferTooShort
  /\ LinuxLE.Loopback_from_buffer buffer = Error BufferTooShort
  /\ ~ (exists p, LinuxLE.Loopback_from_buffer buffer = Ok p
                  /\ inner_pdu p = None).
Proof.
  repeat split; try (simpl; lia).
  intros [p [Hp _]]. discriminate Hp.
Qed.

Lemma from_buffer_inner_failure_witness :
  LinuxLE.Loopback_from_buffer [x02; x00; x00; x00; x45; x00]
  = Error BufferTooShort.
Proof.
  apply (linux_thm from_buffer_inner_failure).
  - simpl; lia.
  - reflexivity.
Defined.

(** C4, against the claim as stated: a buffer of 8 bytes, more than
    4, with family PF_INET, to which no inner PDU is attached: the IP
    constructor rejects the 4 bytes after the family and the
    constructor fails. *)
Lemma from_buffer_attaches_nothing :
  let buffer := [x02; x00; x00; x00; x45; x00; x00; x1c] in
  (4 < length buffer)%nat
  /\ host_decode LinuxLE.host_order (firstn 4 buffer) = LinuxLE.PF_INET
  /\ forall p, LinuxLE.Loopback_from_buffer buffer <> Ok p.
Proof.
  repeat split; try (simpl; lia).
  intros p Hp. discriminate Hp.
Qed.

Lemma from_buffer_inner_witness :
  LinuxLE.Loopback_from_buffer [x1a; x00; x00; x00; xaa; xaa; x03]
  = Ok (mk LinuxLE.PF_LLC
          (Some (PDU_LLC (LinuxLE.mkLLC [xaa; xaa; x03])))).
Proof.
  refine (proj1 (proj2 (linux_thm from_buffer_inner
                          [x1a; x00; x00; x00; xaa; xaa; x03] _)) _ _).
  - simpl; lia.
  - discriminate.
  - reflexivity.
Defined.

Lemma family_round_trip_witness :
  exists out',
    LinuxLE.Loopback_write_serialization
      (mk 0xFFFFFFFF (Some (PDU_RawPDU (RawPDU.mk [x01; x02; x03]))))
      [x00; x00; x00; x00; x09; x09; x09] 7 None
    = Some (mk 0xFFFFFFFF (Some (PDU_RawPDU (RawPDU.mk [x01; x02; x03]))),
            out')
    /\ firstn 4 out' = [xff; xff; xff; xff].
Proof.
  refine (proj2 (@family_round_trip LinuxLE.host_order
                   LinuxLE.PF_INET LinuxLE.PF_LLC LinuxLE.IP LinuxLE.LLC
                   LinuxLE.IP_from_buffer LinuxLE.LLC_from_buffer unit
                   [xff; xff; xff; xff; x01; x02; x03] _
                   [x00; x00; x00; x00; x09; x09; x09] 7%nat None
                   _ _ _)).
  - simpl; lia.
  - reflexivity.
  - simpl; lia.
Defined.

Lemma from_buffer_exactly_four_witness :
  LinuxLE.Loopback_from_buffer [x02; x00; x00; x00] = Ok (mk 2 None).
Proof.
  apply (linux_thm from_buffer_exactly_four [x02; x00; x00; x00]).
  reflexivity.
Defined.

Lemma write_serialization_frame_witness :
  exists buffer',
    LinuxLE.Loopback_write_serialization (mk 2 None)
      [x09; x09; x09; x09; x45; x00] 6 None
    = Some (mk 2 None, buffer')
    /\ skipn 4 buffer' = [x45; x00].
Proof.
  destruct (@write_serialization_frame LinuxLE.host_order
              LinuxLE.IP LinuxLE.LLC unit (mk 2 None)
              [x09; x09; x09; x09; x45; x00] 6%nat None)
    as [buffer' [H1 [_ [H2 _]]]].
  - simpl; lia.
  - exists buffer'. split; [exact H1 | exact H2].
Defined.

End LoopbackSpec.

(** * DHCP *)

Module DHCPSpec.

Section WithBootP.

Variable BootP : Type.
Variable BootP_header : BootP -> list byte.
Variable host_order : endianness.
Variable MAX_DHCP_SIZE : Z.

Local Abbreviation add_options := (DHCP.add_options MAX_DHCP_SIZE).
Local Abbreviation accepted := (DHCP.accepted MAX_DHCP_SIZE).

(** *** Serialization of the options *)

Lemma write_loop (opts : list DHCPOption.t) (written : list byte) :
  fold_left (fun written o => written ++ DHCP.write_option o) opts written
  = written ++ flat_map DHCP.write_option opts.
Proof.
  revert written. induction opts as [|o opts IH]; intros written; simpl.
  - now rewrite app_nil_r.
  - rewrite IH. now rewrite <- app_assoc.
Qed.

Lemma write_options_eq (opts : list DHCPOption.t) :
  DHCP.write_options opts
  = DHCP.magic_cookie ++ flat_map DHCP.write_option opts ++ [xff].
Proof.
  unfold DHCP.write_options. rewrite write_loop.
  now rewrite <- app_assoc.
Qed.

(** [add_option] appends, or leaves the PDU as it is. *)
Lemma add_options_fields (d : DHCP.t BootP)
    (calls : list (Z * Z * list byte)) :
  DHCP.bootp (add_options d calls) = DHCP.bootp d
  /\ DHCP._options (add_options d calls)
     = DHCP._options d ++ accepted (DHCP._size d) calls.
Proof.
  revert d. induction calls as [|[[opt len] val] calls IH]; intros d.
  - simpl. now rewrite app_nil_r.
  - cbn [DHCP.add_options DHCP.accepted]. unfold DHCP.add_option.
    destruct (MAX_DHCP_SIZE <? DHCP._size d + (len + 2)); cbn [snd].
    + apply IH.
    + destruct (IH (DHCP.mk (DHCP.bootp d)
                      (DHCP._options d
                         ++ [DHCPOption.mk opt len
                               (firstn (Z.to_nat len) val)])
                      (DHCP._size d + (len + 2)))) as [Hb Ho].
      split; [exact Hb|]. rewrite Ho. cbn [DHCP._options DHCP._size].
      now rewrite <- app_assoc.
Qed.

(** C6: the serialization of a DHCP PDU on which the caller added
    options is the BootP header, the magic cookie, the options that
    were added, in the order of the calls, and then the END option
    (code 255), once, however many options there are. *)
Theorem write_serialization_options (b : BootP)
    (calls : list (Z * Z * list byte)) :
  DHCP.write_serialization BootP_header
    (add_options (DHCP.default b) calls)
  = BootP_header b ++ DHCP.magic_cookie
      ++ flat_map DHCP.write_option (accepted 5 calls)
      ++ [Z_to_byte DHCP.END].
Proof.
  unfold DHCP.write_serialization.
  destruct (add_options_fields (DHCP.default b) calls) as [Hb Ho].
  rewrite Hb, Ho, write_options_eq. reflexivity.
Qed.

(** When every call fits, every option is written. *)
Lemma accepted_all (size : Z) (calls : list (Z * Z * list byte)) :
  size + fold_right (fun c n => snd (fst c) + 2 + n) 0 calls
    <= MAX_DHCP_SIZE ->
  Forall (fun c => 0 <= snd (fst c)) calls ->
  accepted size calls
  = map (fun c => DHCPOption.mk (fst (fst c)) (snd (fst c))
                    (firstn (Z.to_nat (snd (fst c))) (snd c))) calls.
Proof.
  revert size. induction calls as [|[[opt len] val] calls IH];
    intros size Hfit Hpos; [reflexivity|].
  inversion Hpos as [|? ? Hlen Hrest]; subst. cbn [fst snd] in Hlen.
  assert (Hsum : 0 <= fold_right (fun c n => snd (fst c) + 2 + n) 0 calls).
  { clear -Hrest. induction Hrest as [|c l Hc _ IHl]; simpl; lia. }
  cbn [DHCP.accepted map fst snd fold_right] in *.
  destruct (MAX_DHCP_SIZE <? size + (len + 2)) eqn:E.
  - apply Z.ltb_lt in E. lia.
  - f_equal. apply IH; [lia | exact Hrest].
Qed.

(** *** The kind tag *)

Lemma find_pdu_first {Node : Type} (pdu_type : Node -> PDU.PDUType)
    (kind : PDU.PDUType) (outer : list Node) (p : Node)
    (inner : list Node) :
  (forall n, In n outer -> pdu_type n <> kind) ->
  pdu_type p = kind ->
  PDU.find_pdu pdu_type kind (outer ++ p :: inner) = Some p.
Proof.
  intros Houter Hp. induction outer as [|n outer IH]; simpl.
  - rewrite Hp. now destruct kind.
  - destruct (PDU.PDUType_eqb (pdu_type n) kind) eqn:E.
    + exfalso. apply (Houter n); [now left|].
      destruct (pdu_type n), kind; simpl in E;
        (reflexivity || discriminate).
    + apply IH. intros m Hm. apply Houter. now right.
Qed.

(** C7: [pdu_type()] of a DHCP object is the UDP tag, not the DHCP
    one, so that a search for the UDP kind that reaches a DHCP PDU
    returns it: at the head of a chain, and behind any PDUs that do
    not carry the UDP tag. *)
Theorem pdu_type_is_UDP (d : DHCP.t BootP) :
  DHCP.pdu_type d = PDU.UDP
  /\ DHCP.pdu_type d <> PDU.DHCP
  /\ (forall inner,
        PDU.find_pdu DHCP.node_pdu_type PDU.UDP
          (DHCP.DHCP_node d :: inner)
        = Some (DHCP.DHCP_node d))
  /\ (forall outer inner,
        (forall n, In n outer -> DHCP.node_pdu_type n <> PDU.UDP) ->
        PDU.find_pdu DHCP.node_pdu_type PDU.UDP
          (outer ++ DHCP.DHCP_node d :: inner)
        = Some (DHCP.DHCP_node d)).
Proof.
  split; [reflexivity|]. split; [discriminate|]. split.
  - reflexivity.
  - intros outer inner H. now apply find_pdu_first.
Qed.

(** *** Searching *)

(** [search_option] returns the option of lowest index with the
    code. *)
Lemma search_in_Some (opts : list DHCPOption.t) (c : Z)
    (o : DHCPOption.t) :
  DHCP.search_in opts c = Some o <->
  exists i,
    nth_error opts i = Some o
    /\ DHCPOption.option o = c
    /\ forall j o', (j < i)%nat -> nth_error opts j = Some o' ->
                    DHCPOption.option o' <> c.
Proof.
  induction opts as [|x opts IH]; simpl.
  - split; [discriminate|]. intros [[|i] [H _]]; discriminate.
  - destruct (DHCPOption.option x =? c) eqn:E.
    + apply Z.eqb_eq in E. split.
      * intros [= <-]. exists 0%nat. repeat split; [exact E|].
        intros j o' Hj. lia.
      * intros [[|i] [Hi [Ho Hmin]]]; [exact Hi|].
        exfalso. apply (Hmin 0%nat x); [lia | reflexivity | exact E].
    + apply Z.eqb_neq in E. rewrite IH. split.
      * intros [i [Hi [Ho Hmin]]]. exists (S i). repeat split; auto.
        intros [|j] o' Hj Hnth; simpl in Hnth.
        -- now injection Hnth as <-.
        -- apply (Hmin j); [lia | exact Hnth].
      * intros [[|i] [Hi [Ho Hmin]]]; simpl in Hi.
        -- injection Hi as ->. contradiction.
        -- exists i. repeat split; auto.
           intros j o' Hj Hnth. apply (Hmin (S j)); [lia | exact Hnth].
Qed.

Lemma search_in_None (opts : list DHCPOption.t) (c : Z) :
  DHCP.search_in opts c = None <->
  forall o, In o opts -> DHCPOption.option o <> c.
Proof.
  induction opts as [|x opts IH]; simpl.
  - split; [intros _ o [] | reflexivity].
  - destruct (DHCPOption.option x =? c) eqn:E.
    + apply Z.eqb_eq in E. split; [discriminate|].
      intros H. exfalso. apply (H x); [now left | exact E].
    + apply Z.eqb_neq in E. rewrite IH. split.
      * intros H o [<-|Ho]; [exact E | now apply H].
      * intros H o Ho. apply H. now right.
Qed.

(** C8: the scalar search returns true, and stores the value, if and
    only if [search_option] finds an option, the one of lowest index
    with the code, and its length is [sizeof(T)]; when there is no
    option with the code, or the first one has another length, it
    returns false and stores nothing. *)
Theorem generic_search_spec (sizeofT : nat) (d : DHCP.t BootP)
    (c value : Z) :
  let r := DHCP.generic_search host_order sizeofT d c value in
  (fst r = true <->
   exists i o,
     nth_error (DHCP._options d) i = Some o
     /\ DHCPOption.option o = c
     /\ (forall j o', (j < i)%nat ->
                      nth_error (DHCP._options d) j = Some o' ->
                      DHCPOption.option o' <> c)
     /\ DHCPOption.length o = Z.of_nat sizeofT)
  /\ (forall o,
        DHCP.search_option d c = Some o ->
        DHCPOption.length o = Z.of_nat sizeofT ->
        r = (true, host_decode host_order
                     (firstn sizeofT (DHCPOption.value o))))
  /\ (forall o,
        DHCP.search_option d c = Some o ->
        DHCPOption.length o <> Z.of_nat sizeofT ->
        r = (false, value))
  /\ (DHCP.search_option d c = None -> r = (false, value)).
Proof.
  intros r. subst r. unfold DHCP.generic_search.
  destruct (DHCP.search_option d c) as [o|] eqn:Es.
  - pose proof Es as Hfirst. unfold DHCP.search_option in Hfirst.
    apply search_in_Some in Hfirst. destruct Hfirst as [i [Hi [Ho Hmin]]].
    destruct (DHCPOption.length o =? Z.of_nat sizeofT) eqn:El.
    + apply Z.eqb_eq in El.
      split; [split | split; [|split]].
      * intros _. exists i, o. auto.
      * reflexivity.
      * intros o' [= <-] _. reflexivity.
      * intros o' [= <-] Hne. contradiction.
      * discriminate.
    + apply Z.eqb_neq in El.
      split; [split | split; [|split]].
      * discriminate.
      * intros [i' [o' [Hi' [Ho' [Hmin' Hl']]]]]. exfalso.
        assert (Heq : i' = i).
        { destruct (Nat.lt_total i' i) as [Hlt|[Heq|Hlt]];
            [exfalso; now apply (Hmin i' o') | exact Heq
            | exfalso; now apply (Hmin' i o) ]. }
        subst i'. congruence.
      * intros o' [= <-] Hl. contradiction.
      * intros o' [= <-] _. reflexivity.
      * discriminate.
  - split; [split | split; [|split]].
    + discriminate.
    + intros [i [o [Hi [Ho _]]]]. exfalso.
      unfold DHCP.search_option in Es.
      apply (proj1 (search_in_None _ _) Es o);
        [eapply nth_error_In; exact Hi | exact Ho].
    + discriminate.
    + discriminate.
    + reflexivity.
Qed.

End WithBootP.

(** ** Scenario 4 of the specification *)

Example request_serialization :
  DHCP.write_serialization DHCPExample.BootP_header DHCPExample.request
  = repeat x00 236
      ++ [x63; x82; x53; x63]
      ++ [x35; x01; x03]
      ++ [x32; x04; xc0; x00; x02; x05]
      ++ [x36; x04; xc0; x00; x02; x01]
      ++ [xff].
Proof. reflexivity. Qed.

Example request_search_type_option :
  DHCP.generic_search LittleEndian 1 DHCPExample.request
    DHCP.DHCP_MESSAGE_TYPE 0
  = (true, DHCP.REQUEST).
Proof. reflexivity. Qed.

Lemma pdu_type_is_UDP_witness :
  PDU.find_pdu DHCP.node_pdu_type PDU.UDP DHCPExample.chain
  = Some (DHCP.DHCP_node DHCPExample.request).
Proof.
  apply (proj2 (proj2 (proj2
           (pdu_type_is_UDP DHCPExample.BootP DHCPExample.request)))
           [DHCP.other_node PDU.LOOPBACK; DHCP.other_node PDU.IP] []).
  intros n [<-|[<-|[]]]; discriminate.
Defined.

Lemma generic_search_spec_witness :
  DHCP.generic_search LittleEndian 4 DHCPExample.request
    DHCP.DHCP_SERVER_IDENTIFIER 0
  = (true, 0x010200c0)
  /\ DHCP.generic_search LittleEndian 2 DHCPExample.request
       DHCP.DHCP_SERVER_IDENTIFIER 7
     = (false, 7).
Proof.
  split.
  - apply (proj1 (proj2
             (generic_search_spec DHCPExample.BootP LittleEndian 4
                DHCPExample.request DHCP.DHCP_SERVER_IDENTIFIER 0))
             (DHCPOption.mk 54 4 [xc0; x00; x02; x01]));
      reflexivity.
  - apply (proj1 (proj2 (proj2
             (generic_search_spec DHCPExample.BootP LittleEndian 2
                DHCPExample.request DHCP.DHCP_SERVER_IDENTIFIER 7)))
             (DHCPOption.mk 54 4 [xc0; x00; x02; x01]));
      [reflexivity | discriminate].
Defined.

End DHCPSpec.

(** * Dot11Beacon *)

Module Dot11BeaconSpec.

Import Dot11Beacon.

(** ** The tagged elements *)

Section Parse.

Variable lone_byte : Datatypes.option error.

Local Abbreviation parse_tagged_parameters :=
  (Dot11Beacon.parse_tagged_parameters lone_byte).
Local Abbreviation from_buffer := (Dot11Beacon.from_buffer lone_byte).


(** The loop is never cut short when it is given as many rounds as the
    buffer has bytes: each round takes at least two. *)
Lemma parse_tagged_parameters_fuel (fuel : nat) :
  forall buffer : list byte,
    (Datatypes.length buffer <= 2 * fuel + 1)%nat ->
    parse_tagged_parameters fuel buffer <> None.
Proof.
  induction fuel as [|fuel IH]; intros buffer Hlen;
    destruct buffer as [|opcode [|len rest]];
    cbn [Dot11Beacon.parse_tagged_parameters]; simpl in Hlen;
    try discriminate; try (destruct lone_byte; discriminate); try lia.
  destruct (Datatypes.length rest <? Z.to_nat (byte_to_Z len))%nat;
    [discriminate|].
  specialize (IH (skipn (Z.to_nat (byte_to_Z len)) rest)).
  destruct (Dot11Beacon.parse_tagged_parameters lone_byte fuel _)
    as [[opts|e]|]; try discriminate.
  apply IH. rewrite length_skipn. lia.
Qed.

(** Every encoding of elements whose lengths are those of their
    values is parsed back to these elements. *)
Lemma parse_tagged_parameters_complete (opts : list tagged_option) :
  Forall well_formed_option opts ->
  forall fuel, (Datatypes.length opts <= fuel)%nat ->
  parse_tagged_parameters fuel (flat_map write_option opts)
  = Some (Ok opts).
Proof.
  induction 1 as [|o opts [Hc [Hl Hb]] _ IH]; intros fuel Hfuel.
  - now destruct fuel.
  - destruct fuel as [|fuel]; [simpl in Hfuel; lia|].
    destruct o as [c l v]. cbn [option length value] in *.
    cbn [flat_map write_option option length value app].
    cbn [Dot11Beacon.parse_tagged_parameters].
    rewrite !byte_to_Z_to_byte, (Z.mod_small c), (Z.mod_small l) by lia.
    rewrite Hl, Nat2Z.id.
    destruct (Datatypes.length (v ++ flat_map write_option opts)
              <? Datatypes.length v)%nat eqn:E.
    + apply Nat.ltb_lt in E. rewrite length_app in E. lia.
    + rewrite skipn_app, skipn_all, Nat.sub_diag, skipn_O, app_nil_l.
      rewrite firstn_app, firstn_all, Nat.sub_diag, firstn_O, app_nil_r.
      rewrite IH by (simpl in Hfuel; lia). reflexivity.
Qed.

(** The errors of the element parser: a truncated element, or the one
    a parser that rejects a lone byte gives. *)
Lemma parse_tagged_parameters_error (fuel : nat) :
  forall (buffer : list byte) (e : error),
    parse_tagged_parameters fuel buffer = Some (Error e) ->
    e = TruncatedOption \/ lone_byte = Some e.
Proof.
  induction fuel as [|fuel IH]; intros buffer e;
    destruct buffer as [|opcode [|len rest]];
    cbn [Dot11Beacon.parse_tagged_parameters];
    try discriminate;
    try (destruct lone_byte; [intros [= <-]; now right | discriminate]);
    destruct (Datatypes.length rest <? Z.to_nat (byte_to_Z len))%nat;
    try discriminate; try (intros [= <-]; now left).
  destruct (Dot11Beacon.parse_tagged_parameters lone_byte fuel _)
    as [[opts|e']|] eqn:E; try discriminate.
  intros [= <-]. now apply (IH _ _ E).
Qed.

(** ** The fixed header *)


(** The constructor never reports the loop bound: it returns a PDU or
    fails with one of the errors of the specification. *)
Lemma from_buffer_total (buffer : list byte) :
  from_buffer buffer = Error BufferTooShort
  \/ from_buffer buffer = Error TruncatedOption
  \/ (exists e, lone_byte = Some e /\ from_buffer buffer = Error e)
  \/ exists b, from_buffer buffer = Ok b.
Proof.
  unfold Dot11Beacon.from_buffer.
  destruct (Datatypes.length buffer <? fixed_size)%nat; [now left|].
  cbv beta iota zeta delta [take].
  match goal with
  | |- context [Dot11Beacon.parse_tagged_parameters _ ?f ?b] =>
      pose proof (parse_tagged_parameters_fuel f b ltac:(lia)) as Hf;
      pose proof (parse_tagged_parameters_error f b) as He;
      destruct (Dot11Beacon.parse_tagged_parameters lone_byte f b)
        as [[opts|e]|]
  end.
  - right. right. right. eexists. reflexivity.
  - destruct (He e eq_refl) as [->|Hl].
    + right. now left.
    + right. right. left. now exists e.
  - contradiction.
Qed.

(** ** The order of the elements *)

(** Elements in ascending order of tag are in canonical order
    already. *)
Lemma canonical_order_ascending (opts : list tagged_option) :
  ascending opts -> canonical_order opts = opts.
Proof.
  induction opts as [|o [|x rest] IH]; [reflexivity | reflexivity |].
  intros [Hle Hasc]. unfold canonical_order in *.
  cbn [fold_right] in *. rewrite (IH Hasc). cbn [insert_by_tag].
  apply Z.leb_le in Hle. now rewrite Hle.
Qed.



(** Conversely, the serialization of a beacon whose fields fit their
    widths and whose elements are in ascending order of tag is accepted
    and parsed back to the same beacon: the constructor rejects nothing
    that the serializer produces from such a beacon. *)
Lemma take_app (n : nat) (x y : list byte) :
  Datatypes.length x = n -> take n (x ++ y) = (x, y).
Proof.
  intros <-. unfold take.
  rewrite firstn_app, firstn_all, Nat.sub_diag, firstn_O, app_nil_r.
  rewrite skipn_app, skipn_all, Nat.sub_diag, skipn_O, app_nil_l.
  reflexivity.
Qed.

Lemma write_options_length (opts : list tagged_option) :
  (Datatypes.length opts
   <= Datatypes.length (flat_map write_option opts))%nat.
Proof.
  induction opts as [|o opts IH]; simpl; [lia|].
  rewrite length_app. lia.
Qed.

Lemma from_buffer_serialize (b : t) :
  well_formed b ->
  injected_unknown b = false ->
  ascending (options b) ->
  from_buffer (serialize b) = Ok b.
Proof.
  destruct b as [fc dur a1 a2 a3 seq ts itv cap opts inj].
  unfold well_formed. cbn [frame_control duration_id addr1 addr2 addr3
    seq_control timestamp interval capabilities options injected_unknown].
  intros (Hfc & Hdur & Ha1 & Ha2 & Ha3 & Hseq & Hts & Hitv & Hcap & Hopts)
    -> Hasc.
  unfold Dot11Beacon.from_buffer.
  cbv [serialize emitted_options frame_control duration_id addr1 addr2
    addr3 seq_control timestamp interval capabilities options
    injected_unknown].
  rewrite (canonical_order_ascending _ Hasc).
  destruct (Datatypes.length _ <? fixed_size)%nat eqn:Hlen.
  { apply Nat.ltb_lt in Hlen. revert Hlen.
    cbv [fixed_size mac_header_size beacon_body_size].
    rewrite !length_app, !le_encode_length, Ha1, Ha2, Ha3. simpl. lia. }
  repeat (rewrite take_app by (rewrite ?le_encode_length; assumption
                               || reflexivity);
          cbv beta iota).
  rewrite parse_tagged_parameters_complete
    by (exact Hopts || apply write_options_length).
  rewrite !le_decode_encode.
  change (256 ^ Z.of_nat 2) with (2 ^ 16).
  change (256 ^ Z.of_nat 8) with (2 ^ 64).
  rewrite !Z.mod_small by assumption. reflexivity.
Qed.

(** ** The buffers of the tests *)

(** [Dot11BeaconTest.ConstructorFromBuffer] *)
Example constructor_from_buffer :
  exists b,
    from_buffer expected_packet = Ok b
    /\ subtype b = 8
    /\ timestamp b = 0x1fad2341289301fa
    /\ interval b = 0x14fa
    /\ [ess b; ibss b; cf_poll b; cf_poll_req b; privacy b;
        short_preamble b; pbcc b; channel_agility b; spectrum_mgmt b;
        qos b; sst b; apsd b; reserved b; dsss_ofdm b;
        delayed_block_ack b; immediate_block_ack b]
       = [true; false; true; false; true; false; false; true; false;
          false; false; false; false; true; false; false]
    /\ options b = [].
Proof. eexists. repeat split. Qed.

(** [Dot11BeaconTest.Serialize] *)
Example serialize_expected_packet :
  exists b,
    from_buffer expected_packet = Ok b
    /\ serialize b = expected_packet.
Proof. eexists. split; reflexivity. Qed.

(** [Dot11BeaconTest.PCAPLoad1]: the SSID, the DS parameter set, the
    ERP information, and the serialization. *)
Example pcap_load_1 :
  exists b,
    from_buffer pcap_buffer = Ok b
    /\ option_map value (search_option (options b) 0)
       = Some [x53; x65; x67; x75; x6e; x64; x6f]
    /\ option_map value (search_option (options b) 3) = Some [x01]
    /\ option_map value (search_option (options b) 42) = Some [x00]
    /\ Datatypes.length (serialize b) = Datatypes.length pcap_buffer
    /\ serialize b = pcap_buffer.
Proof. eexists. repeat split. Qed.

End Parse.



End Dot11BeaconSpec.

(** * Loopback: further properties of loopback.cpp *)

Module LoopbackExtra.

Import Loopback.

Lemma firstn_prefix (n : nat) (header rest : list byte) :
  length header = n -> firstn n (header ++ rest) = header.
Proof.
  intros <-.
  now rewrite firstn_app, firstn_all, Nat.sub_diag, firstn_O, app_nil_r.
Qed.

Lemma skipn_prefix (n : nat) (header rest : list byte) :
  length header = n -> skipn n (header ++ rest) = rest.
Proof.
  intros <-. now rewrite skipn_app, skipn_all, Nat.sub_diag, skipn_O.
Qed.

Section Host.

Variable host_order : endianness.
Variables PF_INET PF_LLC : Z.
Variables IP LLC : Type.
Variable IP_from_buffer : list byte -> result IP.
Variable LLC_from_buffer : list byte -> result LLC.

Local Abbreviation from_buffer :=
  (Loopback.from_buffer host_order PF_INET PF_LLC IP LLC
     IP_from_buffer LLC_from_buffer).
Local Abbreviation inner_from_buffer :=
  (Loopback.inner_from_buffer PF_INET PF_LLC IP LLC
     IP_from_buffer LLC_from_buffer).
Local Abbreviation read_family buffer :=
  (host_decode host_order (firstn sizeof_family buffer)).

Lemma firstn_encoded (v : Z) (rest : list byte) :
  firstn 4 (host_encode host_order 4 v ++ rest) = host_encode host_order 4 v.
Proof.
  pose proof (host_encode_length host_order 4 v) as Hl.
  rewrite firstn_app, Hl, Nat.sub_diag, firstn_O, app_nil_r.
  rewrite <- Hl at 1. apply firstn_all.
Qed.

Lemma skipn_encoded (v : Z) (rest : list byte) :
  skipn 4 (host_encode host_order 4 v ++ rest) = rest.
Proof.
  pose proof (host_encode_length host_order 4 v) as Hl.
  rewrite skipn_app, Hl, Nat.sub_diag.
  rewrite <- Hl at 1. rewrite skipn_all. reflexivity.
Qed.

Lemma decode_encoded (v : Z) :
  0 <= v < 2 ^ 32 ->
  host_decode host_order (host_encode host_order 4 v) = v.
Proof.
  intros H. rewrite host_decode_encode.
  change (256 ^ Z.of_nat 4) with (2 ^ 32). now apply Z.mod_small.
Qed.

(** The constructor applied to an encoded family followed by a
    payload. *)
Lemma from_buffer_encoded (family : Z) (rest : list byte) :
  0 <= family < 2 ^ 32 ->
  from_buffer (host_encode host_order 4 family ++ rest) =
  match rest with
  | [] => Ok (mk family None)
  | _ :: _ =>
      (inner <- inner_from_buffer family rest ;;
       Ok (mk family (Some inner)))%result
  end.
Proof.
  intros Hf.
  pose proof (host_encode_length host_order 4 family) as Hl.
  destruct rest as [|b rest].
  - rewrite app_nil_r.
    rewrite (LoopbackSpec.from_buffer_header_only _ _ _ _ _ _ _ _ Hl).
    unfold sizeof_family. rewrite <- Hl at 1.
    rewrite firstn_all, decode_encoded by exact Hf. reflexivity.
  - rewrite LoopbackSpec.from_buffer_long
      by (rewrite length_app, Hl; simpl; lia).
    unfold sizeof_family.
    rewrite firstn_encoded, skipn_encoded, decode_encoded by exact Hf.
    reflexivity.
Qed.

(** X1: what [write_serialization] writes is read back by the
    constructor: the four bytes it puts at the start of a buffer are
    accepted and yield a PDU with the same family and no inner PDU. *)
Theorem from_buffer_of_written_header {Parent : Type} (p : t IP LLC)
    (buffer : list byte) (total_sz : nat) (parent : option Parent) :
  0 <= _family p < 2 ^ 32 ->
  (4 <= total_sz <= length buffer)%nat ->
  exists buffer',
    write_serialization host_order p buffer total_sz parent
      = Some (p, buffer')
    /\ from_buffer (firstn 4 buffer') = Ok (mk (_family p) None).
Proof.
  intros Hf Hb. eexists.
  split; [apply LoopbackSpec.write_serialization_eq; exact Hb|].
  rewrite firstn_encoded.
  rewrite <- (app_nil_r (host_encode host_order 4 (_family p))).
  now rewrite from_buffer_encoded.
Qed.

(** X2: a header followed by a payload is parsed by parts: on the
    encoding of a family followed by a non-empty payload, the
    constructor hands exactly the payload to the constructor the family
    selects and keeps the family. *)
Theorem from_buffer_header_then_payload (family : Z) (rest : list byte) :
  0 <= family < 2 ^ 32 ->
  rest <> [] ->
  from_buffer (host_encode host_order 4 family ++ rest) =
  (inner <- inner_from_buffer family rest ;;
   Ok (mk family (Some inner)))%result.
Proof.
  intros Hf Hr. rewrite from_buffer_encoded by exact Hf.
  destruct rest; [contradiction|reflexivity].
Qed.

(** The inner PDU of a PDU built from a buffer, case by case. *)
Lemma from_buffer_cases (buffer : list byte) (p : t IP LLC) :
  from_buffer buffer = Ok p ->
  (length buffer = 4%nat /\ inner_pdu p = None)
  \/ ((4 < length buffer)%nat
      /\ exists inner,
          inner_pdu p = Some inner
          /\ inner_from_buffer (read_family buffer)
               (skipn sizeof_family buffer) = Ok inner).
Proof.
  destruct (Nat.lt_total (length buffer) 4) as [H|[H|H]].
  - rewrite LoopbackSpec.from_buffer_short by exact H. discriminate.
  - rewrite LoopbackSpec.from_buffer_header_only by exact H.
    intros Hp. apply Ok_inj in Hp. subst p. now left.
  - rewrite LoopbackSpec.from_buffer_long by exact H.
    destruct (inner_from_buffer _ _) as [inner|e]; simpl; [|discriminate].
    intros Hp. apply Ok_inj in Hp. subst p. right.
    split; [exact H|]. now exists inner.
Qed.

(** A RawPDU comes out of the [switch] by its default branch only. *)
Lemma inner_from_buffer_raw (family : Z) (buffer : list byte)
    (raw : RawPDU.t) :
  inner_from_buffer family buffer = Ok (PDU_RawPDU raw) ->
  family <> PF_INET /\ family <> PF_LLC /\ RawPDU.payload raw = buffer.
Proof.
  unfold Loopback.inner_from_buffer.
  destruct (family =? PF_INET) eqn:E1.
  { destruct (IP_from_buffer _); simpl; discriminate. }
  destruct (family =? PF_LLC) eqn:E2.
  { destruct (LLC_from_buffer _); simpl; discriminate. }
  apply Z.eqb_neq in E1, E2. intros H. apply Ok_inj in H.
  injection H as <-. auto.
Qed.

(** X3: a PDU built from a buffer has no inner PDU exactly when the
    buffer had exactly 4 bytes. *)
Theorem from_buffer_inner_none_iff (buffer : list byte) (p : t IP LLC) :
  from_buffer buffer = Ok p ->
  (inner_pdu p = None <-> length buffer = 4%nat).
Proof.
  intros Hp.
  destruct (from_buffer_cases _ _ Hp) as [[H4 Hn]|[Hlt [inner [Hi _]]]].
  - now split.
  - rewrite Hi. split; [discriminate | lia].
Qed.

(** X4: the class of the inner PDU tells the family: after the
    constructor an IP inner means family PF_INET, an LLC inner means
    family PF_LLC, and a RawPDU inner means any other family and holds
    exactly the bytes after the first 4. *)
Theorem from_buffer_inner_class (buffer : list byte) (p : t IP LLC) :
  from_buffer buffer = Ok p ->
  match inner_pdu p with
  | Some (PDU_IP _) => _family p = PF_INET
  | Some (PDU_LLC _) => _family p = PF_LLC /\ _family p <> PF_INET
  | Some (PDU_RawPDU raw) =>
      _family p <> PF_INET /\ _family p <> PF_LLC
      /\ RawPDU.payload raw = skipn 4 buffer
  | None => length buffer = 4%nat
  end.
Proof.
  intros Hp. rewrite (LoopbackSpec.from_buffer_family _ _ _ _ _ _ _ _ _ Hp).
  destruct (from_buffer_cases _ _ Hp) as [[H4 Hn]|[Hlt [inner [Hi Hd]]]].
  - now rewrite Hn.
  - rewrite Hi. revert Hd. unfold Loopback.inner_from_buffer.
    destruct (read_family buffer =? PF_INET) eqn:E1.
    + destruct (IP_from_buffer _); simpl; [|discriminate].
      intros Hd. apply Ok_inj in Hd. subst inner. now apply Z.eqb_eq.
    + apply Z.eqb_neq in E1.
      destruct (read_family buffer =? PF_LLC) eqn:E2.
      * destruct (LLC_from_buffer _); simpl; [|discriminate].
        intros Hd. apply Ok_inj in Hd. subst inner.
        apply Z.eqb_eq in E2. now split.
      * apply Z.eqb_neq in E2. intros Hd. apply Ok_inj in Hd. subst inner.
        repeat split; assumption.
Qed.

(** X5: the family of a PDU built from a buffer is a 32-bit unsigned
    value. *)
Theorem from_buffer_family_range (buffer : list byte) (p : t IP LLC) :
  from_buffer buffer = Ok p -> 0 <= _family p < 2 ^ 32.
Proof.
  intros Hp. rewrite (LoopbackSpec.from_buffer_family _ _ _ _ _ _ _ _ _ Hp).
  pose proof (host_decode_range host_order (firstn sizeof_family buffer))
    as Hr.
  assert (Hl : (length (firstn sizeof_family buffer) <= 4)%nat)
    by (rewrite length_firstn; unfold sizeof_family; lia).
  assert (256 ^ Z.of_nat (length (firstn sizeof_family buffer)) <= 2 ^ 32).
  { change (2 ^ 32) with (256 ^ Z.of_nat 4).
    apply Z.pow_le_mono_r; lia. }
  lia.
Qed.

(** X6: a buffer with an unrecognised family survives the round trip:
    the four bytes [write_serialization] writes for the PDU built from
    it, followed by the payload of its RawPDU, are the buffer. *)
Theorem raw_round_trip {Parent : Type} (buffer : list byte) (p : t IP LLC)
    (raw : RawPDU.t) (out : list byte) (parent : option Parent) :
  from_buffer buffer = Ok p ->
  inner_pdu p = Some (PDU_RawPDU raw) ->
  (4 <= length out)%nat ->
  exists out',
    write_serialization host_order p out (length out) parent
      = Some (p, out')
    /\ firstn 4 out' ++ RawPDU.payload raw = buffer.
Proof.
  intros Hp Hi Hout. eexists.
  split; [apply LoopbackSpec.write_serialization_eq; lia|].
  destruct (from_buffer_cases _ _ Hp) as [[H4 Hn]|[Hlt [inner [Hi' Hd]]]];
    [congruence|].
  assert (inner = PDU_RawPDU raw) by congruence. subst inner.
  destruct (inner_from_buffer_raw _ _ _ Hd) as [_ [_ Hpay]].
  unfold sizeof_family in Hpay.
  rewrite firstn_encoded, Hpay.
  rewrite (LoopbackSpec.from_buffer_family _ _ _ _ _ _ _ _ _ Hp).
  unfold sizeof_family.
  assert (Hl : length (firstn 4 buffer) = 4%nat)
    by (rewrite length_firstn; lia).
  rewrite <- Hl at 1. rewrite host_encode_decode.
  apply firstn_skipn.
Qed.

(** X7: the setter [family] changes the family and nothing else: the
    inner PDU stays, and the next [write_serialization] writes the new
    family, which reads back as the value that was set. *)
Theorem family_then_write_serialization {Parent : Type} (p : t IP LLC)
    (family_id : Z) (buffer : list byte) (total_sz : nat)
    (parent : option Parent) :
  0 <= family_id < 2 ^ 32 ->
  (4 <= total_sz <= length buffer)%nat ->
  inner_pdu (family p family_id) = inner_pdu p
  /\ exists buffer',
      write_serialization host_order (family p family_id) buffer
        total_sz parent
      = Some (family p family_id, buffer')
      /\ host_decode host_order (firstn 4 buffer') = family_id
      /\ skipn 4 buffer' = skipn 4 buffer.
Proof.
  intros Hf Hb. split; [reflexivity|]. eexists.
  split; [apply LoopbackSpec.write_serialization_eq; exact Hb|].
  cbn [family _family].
  rewrite firstn_encoded, skipn_encoded, decode_encoded by exact Hf.
  split; reflexivity.
Qed.

(** X8: [write_serialization] does not read what it overwrites: writing
    one PDU and then another into the same buffer leaves what writing
    the second alone leaves. *)
Theorem write_serialization_overwrites {Parent : Type} (p q : t IP LLC)
    (buffer buffer' : list byte) (total_sz : nat)
    (parent : option Parent) :
  (4 <= total_sz <= length buffer)%nat ->
  write_serialization host_order p buffer total_sz parent
    = Some (p, buffer') ->
  write_serialization host_order q buffer' total_sz parent
  = write_serialization host_order q buffer total_sz parent.
Proof.
  intros Hb. rewrite LoopbackSpec.write_serialization_eq by exact Hb.
  intros H.
  assert (Hb' : buffer'
                = host_encode host_order 4 (_family p) ++ skipn 4 buffer)
    by congruence.
  subst buffer'. clear H.
  rewrite (LoopbackSpec.write_serialization_eq host_order IP LLC q buffer)
    by exact Hb.
  rewrite LoopbackSpec.write_serialization_eq
    by (rewrite length_app, host_encode_length, length_skipn; lia).
  now rewrite skipn_encoded.
Qed.

(** X10: an unrecognised family is never a reason to reject: every
    buffer of at least 4 bytes whose family is neither PF_INET nor
    PF_LLC is accepted. *)
Theorem from_buffer_accepts_other_families (buffer : list byte) :
  (4 <= length buffer)%nat ->
  read_family buffer <> PF_INET ->
  read_family buffer <> PF_LLC ->
  exists p, from_buffer buffer = Ok p /\ _family p = read_family buffer.
Proof.
  intros Hlen H1 H2.
  destruct (Nat.eq_dec (length buffer) 4) as [H4|H4].
  - rewrite LoopbackSpec.from_buffer_header_only by exact H4.
    eexists. split; reflexivity.
  - rewrite LoopbackSpec.from_buffer_long by lia.
    unfold Loopback.inner_from_buffer.
    apply Z.eqb_neq in H1, H2. rewrite H1, H2. simpl.
    eexists. split; reflexivity.
Qed.

End Host.

(** X9: the family has no portable byte order: a little-endian host
    reads from a buffer what a big-endian host reads from the same
    buffer with its first four bytes reversed, inner PDU included. *)
Theorem from_buffer_other_byte_order (PF_INET PF_LLC : Z) (IP LLC : Type)
    (IP_from_buffer : list byte -> result IP)
    (LLC_from_buffer : list byte -> result LLC)
    (header rest : list byte) :
  length header = 4%nat ->
  Loopback.from_buffer LittleEndian PF_INET PF_LLC IP LLC
    IP_from_buffer LLC_from_buffer (header ++ rest)
  = Loopback.from_buffer BigEndian PF_INET PF_LLC IP LLC
      IP_from_buffer LLC_from_buffer (rev header ++ rest).
Proof.
  intros Hl.
  assert (Hr : length (rev header) = 4%nat) by now rewrite length_rev.
  assert (Hfam : host_decode LittleEndian (firstn 4 (header ++ rest))
                 = host_decode BigEndian (firstn 4 (rev header ++ rest))).
  { rewrite !firstn_prefix by assumption.
    unfold host_decode, be_decode. now rewrite rev_involutive. }
  assert (Hres : skipn 4 (header ++ rest) = skipn 4 (rev header ++ rest)).
  { now rewrite !skipn_prefix by assumption. }
  unfold Loopback.from_buffer, sizeof_family.
  rewrite Hfam, Hres, !length_app, Hl, Hr. reflexivity.
Qed.

(** ** On a little-endian Linux host *)

Local Abbreviation on_linux thm :=
  (thm LinuxLE.host_order LinuxLE.PF_INET LinuxLE.PF_LLC
     LinuxLE.IP LinuxLE.LLC LinuxLE.IP_from_buffer LinuxLE.LLC_from_buffer).

Lemma from_buffer_of_written_header_witness :
  exists buffer',
    LinuxLE.Loopback_write_serialization (mk 26 None)
      [x00; x00; x00; x00; xaa; xaa; x03] 7 None
    = Some (mk 26 None, buffer')
    /\ LinuxLE.Loopback_from_buffer (firstn 4 buffer') = Ok (mk 26 None).
Proof.
  apply (@from_buffer_of_written_header LinuxLE.host_order
           LinuxLE.PF_INET LinuxLE.PF_LLC LinuxLE.IP LinuxLE.LLC
           LinuxLE.IP_from_buffer LinuxLE.LLC_from_buffer unit
           (mk 26 None) [x00; x00; x00; x00; xaa; xaa; x03] 7%nat None).
  - simpl; lia.
  - simpl; lia.
Defined.

Lemma from_buffer_header_then_payload_witness :
  LinuxLE.Loopback_from_buffer
    (host_encode LittleEndian 4 26 ++ [xaa; xaa; x03])
  = Ok (mk 26 (Some (PDU_LLC (LinuxLE.mkLLC [xaa; xaa; x03])))).
Proof.
  apply (on_linux from_buffer_header_then_payload 26 [xaa; xaa; x03]).
  - lia.
  - discriminate.
Defined.

Lemma from_buffer_inner_none_iff_witness :
  inner_pdu (mk (IP := LinuxLE.IP) (LLC := LinuxLE.LLC) 2 None) = None
  <-> length [x02; x00; x00; x00] = 4%nat.
Proof.
  apply (on_linux from_buffer_inner_none_iff [x02; x00; x00; x00]).
  reflexivity.
Defined.

Lemma from_buffer_inner_class_witness :
  LinuxLE.PF_LLC = LinuxLE.PF_LLC /\ LinuxLE.PF_LLC <> LinuxLE.PF_INET.
Proof.
  exact (on_linux from_buffer_inner_class
           [x1a; x00; x00; x00; xaa; xaa; x03]
           (mk 26 (Some (PDU_LLC (LinuxLE.mkLLC [xaa; xaa; x03]))))
           eq_refl).
Defined.

Lemma from_buffer_family_range_witness : 0 <= 0xFFFFFFFF < 2 ^ 32.
Proof.
  exact (on_linux from_buffer_family_range
           [xff; xff; xff; xff; x01; x02; x03]
           (mk 0xFFFFFFFF (Some (PDU_RawPDU (RawPDU.mk [x01; x02; x03]))))
           eq_refl).
Defined.

Lemma raw_round_trip_witness :
  exists out',
    LinuxLE.Loopback_write_serialization
      (mk 0xFFFFFFFF (Some (PDU_RawPDU (RawPDU.mk [x01; x02; x03]))))
      [x00; x00; x00; x00; x00; x00; x00] 7 None
    = Some (mk 0xFFFFFFFF (Some (PDU_RawPDU (RawPDU.mk [x01; x02; x03]))),
            out')
    /\ firstn 4 out' ++ [x01; x02; x03]
       = [xff; xff; xff; xff; x01; x02; x03].
Proof.
  apply (@raw_round_trip LinuxLE.host_order
           LinuxLE.PF_INET LinuxLE.PF_LLC LinuxLE.IP LinuxLE.LLC
           LinuxLE.IP_from_buffer LinuxLE.LLC_from_buffer unit
           [xff; xff; xff; xff; x01; x02; x03]
           (mk 0xFFFFFFFF (Some (PDU_RawPDU (RawPDU.mk [x01; x02; x03]))))
           (RawPDU.mk [x01; x02; x03])
           [x00; x00; x00; x00; x00; x00; x00] None).
  - reflexivity.
  - reflexivity.
  - simpl; lia.
Defined.

Lemma family_then_write_serialization_witness :
  inner_pdu (family (mk (IP := LinuxLE.IP) (LLC := LinuxLE.LLC) 2 None) 26)
  = None
  /\ exists buffer',
       LinuxLE.Loopback_write_serialization (family (mk 2 None) 26)
         [x09; x09; x09; x09; xaa] 5 None
       = Some (family (mk 2 None) 26, buffer')
       /\ host_decode LittleEndian (firstn 4 buffer') = 26
       /\ skipn 4 buffer' = [xaa].
Proof.
  apply (@family_then_write_serialization LinuxLE.host_order
           LinuxLE.IP LinuxLE.LLC unit (mk 2 None) 26
           [x09; x09; x09; x09; xaa] 5%nat None).
  - lia.
  - simpl; lia.
Defined.

Lemma write_serialization_overwrites_witness :
  LinuxLE.Loopback_write_serialization (mk 26 None)
    [x02; x00; x00; x00; xaa] 5 None
  = LinuxLE.Loopback_write_serialization (mk 26 None)
      [x09; x09; x09; x09; xaa] 5 None.
Proof.
  apply (@write_serialization_overwrites LinuxLE.host_order
           LinuxLE.IP LinuxLE.LLC unit (mk 2 None) (mk 26 None)
           [x09; x09; x09; x09; xaa] [x02; x00; x00; x00; xaa] 5%nat None).
  - simpl; lia.
  - reflexivity.
Defined.

Lemma from_buffer_other_byte_order_witness :
  Loopback.from_buffer LittleEndian LinuxLE.PF_INET LinuxLE.PF_LLC
    LinuxLE.IP LinuxLE.LLC LinuxLE.IP_from_buffer LinuxLE.LLC_from_buffer
    ([x1a; x00; x00; x00] ++ [xaa; xaa; x03])
  = Loopback.from_buffer BigEndian LinuxLE.PF_INET LinuxLE.PF_LLC
      LinuxLE.IP LinuxLE.LLC LinuxLE.IP_from_buffer LinuxLE.LLC_from_buffer
      (rev [x1a; x00; x00; x00] ++ [xaa; xaa; x03]).
Proof.
  apply from_buffer_other_byte_order. reflexivity.
Defined.

Lemma from_buffer_accepts_other_families_witness :
  exists p,
    LinuxLE.Loopback_from_buffer [xff; xff; xff; xff; x01; x02; x03] = Ok p
    /\ _family p = 0xFFFFFFFF.
Proof.
  apply (on_linux from_buffer_accepts_other_families
           [xff; xff; xff; xff; x01; x02; x03]).
  - simpl; lia.
  - discriminate.
  - discriminate.
Defined.

End LoopbackExtra.

(** * DHCP: further properties of the header *)

Module DHCPExtra.

Section WithBootP.

Variable BootP : Type.
Variable host_order : endianness.

Local Abbreviation generic_search := (DHCP.generic_search host_order).

(** The two outcomes of the scalar search. *)
Lemma generic_search_true (sizeofT : nat) (d : DHCP.t BootP) (c value : Z) :
  fst (generic_search sizeofT d c value) = true ->
  exists o,
    DHCP.search_option d c = Some o
    /\ DHCPOption.length o = Z.of_nat sizeofT
    /\ snd (generic_search sizeofT d c value)
       = host_decode host_order (firstn sizeofT (DHCPOption.value o)).
Proof.
  unfold DHCP.generic_search.
  destruct (DHCP.search_option d c) as [o|]; [|discriminate].
  destruct (DHCPOption.length o =? Z.of_nat sizeofT) eqn:E; [|discriminate].
  intros _. exists o. apply Z.eqb_eq in E. auto.
Qed.

(** X11: an option can be read at one width only: if the scalar search
    for a code succeeds for a type of [s1] bytes and for a type of
    [s2] bytes on the same PDU, then [s1 = s2]. *)
Theorem generic_search_one_width (s1 s2 : nat) (d : DHCP.t BootP)
    (c v1 v2 : Z) :
  fst (generic_search s1 d c v1) = true ->
  fst (generic_search s2 d c v2) = true ->
  s1 = s2.
Proof.
  intros H1 H2.
  destruct (generic_search_true _ _ _ _ H1) as [o1 [Hs1 [Hl1 _]]].
  destruct (generic_search_true _ _ _ _ H2) as [o2 [Hs2 [Hl2 _]]].
  rewrite Hs1 in Hs2. injection Hs2 as <-. lia.
Qed.

(** X13: a scalar that the option holds in the host's representation
    is read back unchanged: when the option found has the length of
    the type and its value is the host encoding of [v], the search
    returns true and stores [v]. *)
Theorem generic_search_host_round_trip (sizeofT : nat) (d : DHCP.t BootP)
    (c value v : Z) (o : DHCPOption.t) :
  DHCP.search_option d c = Some o ->
  DHCPOption.length o = Z.of_nat sizeofT ->
  DHCPOption.value o = host_encode host_order sizeofT v ->
  0 <= v < 256 ^ Z.of_nat sizeofT ->
  generic_search sizeofT d c value = (true, v).
Proof.
  intros Hs Hl Hv Hr. unfold DHCP.generic_search.
  rewrite Hs, Hl, Z.eqb_refl, Hv.
  pose proof (host_encode_length host_order sizeofT v) as Hlen.
  rewrite <- Hlen at 1. rewrite firstn_all, host_decode_encode.
  now rewrite Z.mod_small.
Qed.

End WithBootP.

(** X14: a one-byte scalar does not depend on the byte order of the
    host: the search for a type of size 1 gives the same result on a
    little-endian and on a big-endian host. *)
Theorem generic_search_one_byte (BootP : Type) (d : DHCP.t BootP)
    (c value : Z) :
  DHCP.generic_search LittleEndian 1 d c value
  = DHCP.generic_search BigEndian 1 d c value.
Proof.
  unfold DHCP.generic_search.
  destruct (DHCP.search_option d c) as [o|]; [|reflexivity].
  destruct (DHCPOption.length o =? Z.of_nat 1); [|reflexivity].
  now destruct (DHCPOption.value o).
Qed.

(** ** The enumerations *)

Import Stdlib.Strings.String.StringSyntax.

Lemma value_of_In (values : list (String.string * Z))
    (name : String.string) (v : Z) :
  DHCPEnum.value_of values name = Some v -> In (name, v) values.
Proof.
  induction values as [|[n w] values IH]; simpl; [discriminate|].
  destruct (String.eqb n name) eqn:E.
  - apply String.eqb_eq in E. intros [= <-]. left. now subst.
  - intros H. right. now apply IH.
Qed.

Lemma NoDup_snd_inj (values : list (String.string * Z))
    (n1 n2 : String.string) (v : Z) :
  NoDup (map snd values) ->
  In (n1, v) values -> In (n2, v) values -> n1 = n2.
Proof.
  induction values as [|[n w] values IH]; simpl; [contradiction|].
  intros Hnd. inversion Hnd as [|? ? Hnotin Hnd']; subst.
  intros [H1|H1] [H2|H2].
  - congruence.
  - exfalso. apply Hnotin. injection H1 as -> ->.
    now apply (in_map snd _ _ H2).
  - exfalso. apply Hnotin. injection H2 as -> ->.
    now apply (in_map snd _ _ H1).
  - now apply IH.
Qed.

Lemma Options_values_NoDup : NoDup (map snd DHCPEnum.Options_values).
Proof.
  replace (map snd DHCPEnum.Options_values)
    with (nodup Z.eq_dec (map snd DHCPEnum.Options_values))
    by (vm_compute; reflexivity).
  apply NoDup_nodup.
Qed.

Lemma Options_values_bytes :
  Forall (fun nv => 0 <= snd nv <= 255) DHCPEnum.Options_values.
Proof.
  unfold DHCPEnum.Options_values, DHCPEnum.Options. cbn [DHCPEnum.enum_values].
  repeat (constructor; [simpl; lia|]). constructor.
Qed.

(** X15: the option codes of [enum Options] identify their
    enumerators and fit the [uint8_t option] member: two enumerators
    with the same value are the same enumerator, and every value is a
    byte, which the conversion to a byte and back leaves unchanged. *)
Theorem Options_codes (n1 n2 : String.string) (v : Z) :
  DHCPEnum.value_of DHCPEnum.Options_values n1 = Some v ->
  DHCPEnum.value_of DHCPEnum.Options_values n2 = Some v ->
  n1 = n2 /\ 0 <= v <= 255 /\ byte_to_Z (Z_to_byte v) = v.
Proof.
  intros H1 H2. apply value_of_In in H1, H2.
  assert (Hb : 0 <= v <= 255).
  { pose proof Options_values_bytes as Hall.
    rewrite Forall_forall in Hall. exact (Hall _ H1). }
  split; [|split].
  - exact (NoDup_snd_inj _ _ _ _ Options_values_NoDup H1 H2).
  - exact Hb.
  - rewrite byte_to_Z_to_byte. apply Z.mod_small. lia.
Qed.

(** ** Scenario 4 of the specification, again *)

Lemma generic_search_one_width_witness : 4%nat = 4%nat.
Proof.
  apply (generic_search_one_width DHCPExample.BootP LittleEndian 4 4
           DHCPExample.request DHCP.DHCP_SERVER_IDENTIFIER 0 7);
    reflexivity.
Defined.

Lemma generic_search_host_round_trip_witness :
  DHCP.generic_search LittleEndian 1 DHCPExample.request
    DHCP.DHCP_MESSAGE_TYPE 0
  = (true, DHCP.REQUEST).
Proof.
  apply (generic_search_host_round_trip DHCPExample.BootP LittleEndian 1
           DHCPExample.request DHCP.DHCP_MESSAGE_TYPE 0 DHCP.REQUEST
           (DHCPOption.mk 53 1 [x03])).
  - reflexivity.
  - reflexivity.
  - reflexivity.
  - unfold DHCP.REQUEST. simpl. lia.
Defined.

Local Open Scope string_scope.

Lemma Options_codes_witness :
  "DHCP_MESSAGE_TYPE" = "DHCP_MESSAGE_TYPE"
  /\ 0 <= 53 <= 255 /\ byte_to_Z (Z_to_byte 53) = 53.
Proof.
  apply Options_codes; reflexivity.
Defined.

End DHCPExtra.
